(** * ferl_demos: the PID evaluator and the force-interaction node

    A shallow embedding of [ferl_demos/controllers/pid.py] (class [PID]) and of
    the callbacks of [ferl_demos/demo_recorder.py] (class [TestVel]).

    Numbers are IEEE-754 binary64 values, the representation of Python's
    [float] and of numpy's [float64]: Rocq's primitive floats.  numpy arrays
    are two-dimensional and carry numpy's broadcasting rule; Python exceptions
    are values of [exn], and every method is a state transformer that returns
    the state as it is when the method returns or raises. *)

From Stdlib Require Import Ascii String.
From Stdlib Require Import Floats ZArith List Bool Lia PeanoNat.
Import ListNotations.

Set Warnings "-inexact-float".

(** ** Exceptions and the state-and-error monad *)

Inductive exn : Type :=
| LookupException
| ConnectivityException
| ExtrapolationException
| ValueError
| ZeroDivisionError
| IndexError
| TypeError
| OverflowError
| SyntaxError.

Definition res (A : Type) : Type := (exn + A)%type.

Definition ok {A : Type} (a : A) : res A := inr a.
Definition raise_ {A : Type} (e : exn) : res A := inl e.

(** A method of an object with fields [S]: it ends in a state and either a
    value or a raised exception; what was assigned before a [raise] stays. *)
Definition M (S A : Type) : Type := S -> S * res A.

Definition ret {S A : Type} (a : A) : M S A := fun s => (s, inr a).

Definition throw {S A : Type} (e : exn) : M S A := fun s => (s, inl e).

Definition bind {S A B : Type} (m : M S A) (k : A -> M S B) : M S B :=
  fun s =>
    match m s with
    | (s', inr a) => k a s'
    | (s', inl e) => (s', inl e)
    end.

Definition get_ {S : Type} : M S S := fun s => (s, inr s).

Definition modify {S : Type} (f : S -> S) : M S unit := fun s => (f s, inr tt).

Definition lift {S A : Type} (r : res A) : M S A := fun s => (s, r).

(** [try: body except handles: handler]. *)
Definition try_except {S A : Type} (body : M S A) (handles : exn -> bool)
  (handler : exn -> M S A) : M S A :=
  fun s =>
    match body s with
    | (s', inl e) => if handles e then handler e s' else (s', inl e)
    | r => r
    end.

Declare Scope py_scope.
Delimit Scope py_scope with py.
Notation "x <- c1 ;; c2" := (bind c1 (fun x => c2))
  (at level 61, c1 at next level, right associativity) : py_scope.
Notation "c1 ;; c2" := (bind c1 (fun _ => c2))
  (at level 61, right associativity) : py_scope.

(** ** numpy arrays *)

Module np.

(** An array of shape (r, c): [r] rows of [c] entries. A column vector has
    shape (n, 1), a scalar operand behaves as shape (1, 1). *)
Definition ndarray : Type := list (list float).

Definition nrows (A : ndarray) : nat := length A.

Definition ncols (A : ndarray) : nat :=
  match A with
  | [] => 0
  | r :: _ => length r
  end.

Definition shape (A : ndarray) : nat * nat := (nrows A, ncols A).

Definition get (A : ndarray) (i j : nat) : float := nth j (nth i A []) 0%float.

(** [A[i][j]] as Python evaluates it: IndexError outside the array. *)
Definition item (A : ndarray) (i j : nat) : res float :=
  match nth_error A i with
  | None => raise_ IndexError
  | Some row =>
      match nth_error row j with
      | None => raise_ IndexError
      | Some v => ok v
      end
  end.

Definition tabulate (r c : nat) (f : nat -> nat -> float) : ndarray :=
  map (fun i => map (fun j => f i j) (seq 0 c)) (seq 0 r).

(** [np.zeros((r, c))], [np.ones((r, c))], [np.eye(n)] *)
Definition zeros (r c : nat) : ndarray := tabulate r c (fun _ _ => 0%float).
Definition ones (r c : nat) : ndarray := tabulate r c (fun _ _ => 1%float).
Definition eye (n : nat) : ndarray :=
  tabulate n n (fun i j => if (i =? j)%nat then 1%float else 0%float).

Definition has_shape (r c : nat) (A : ndarray) : bool :=
  (length A =? r)%nat && forallb (fun row => (length row =? c)%nat) A.

(** Broadcasting of one axis: equal lengths, or one of them is 1. *)
Definition bdim (a b : nat) : option nat :=
  if (a =? b)%nat then Some a
  else if (a =? 1)%nat then Some b
  else if (b =? 1)%nat then Some a
  else None.

Definition bidx (dim i : nat) : nat := if (dim =? 1)%nat then 0%nat else i.

(** An element-wise binary operator with broadcasting; ValueError when the
    operands could not be broadcast together. *)
Definition broadcast (f : float -> float -> float) (A B : ndarray) : res ndarray :=
  match bdim (nrows A) (nrows B), bdim (ncols A) (ncols B) with
  | Some r, Some c =>
      ok (tabulate r c (fun i j =>
            f (get A (bidx (nrows A) i) (bidx (ncols A) j))
              (get B (bidx (nrows B) i) (bidx (ncols B) j))))
  | _, _ => raise_ ValueError
  end.

Definition mul : ndarray -> ndarray -> res ndarray := broadcast PrimFloat.mul.
Definition add : ndarray -> ndarray -> res ndarray := broadcast PrimFloat.add.
Definition sub : ndarray -> ndarray -> res ndarray := broadcast PrimFloat.sub.

(** [A += B]: the sum must have the shape of [A], which is updated in place. *)
Definition iadd (A B : ndarray) : res ndarray :=
  match add A B with
  | inr R =>
      if ((nrows R =? nrows A)%nat && (ncols R =? ncols A)%nat)%bool
      then ok R else raise_ ValueError
  | inl e => raise_ e
  end.

(** [k * A] and [A / k] for a Python float [k]. *)
Definition smul (k : float) (A : ndarray) : ndarray :=
  map (map (fun v => PrimFloat.mul k v)) A.

Definition sdiv (A : ndarray) (k : float) : ndarray :=
  map (map (fun v => PrimFloat.div v k)) A.

End np.

Arguments np.tabulate : simpl never.
Arguments np.zeros : simpl never.
Arguments np.mul : simpl never.
Arguments np.add : simpl never.
Arguments np.sub : simpl never.
Arguments np.iadd : simpl never.
Arguments np.smul : simpl never.
Arguments np.sdiv : simpl never.

(** ** controllers/pid.py *)

Module pid.

Record PID : Type := mkPID {
  num_dofs : nat;
  _p_gain : np.ndarray;
  _i_gain : np.ndarray;
  _d_gain : np.ndarray;
  _i_min : float;
  _i_max : float;
  _p_error_last : np.ndarray;
  _p_error : np.ndarray;
  _d_error : np.ndarray;
  _i_error : np.ndarray;
  _cmd : np.ndarray;
  _last_time : option float;
  i : Z
}.

Definition set_num_dofs v (s : PID) : PID :=
  mkPID v (_p_gain s) (_i_gain s) (_d_gain s) (_i_min s) (_i_max s)
    (_p_error_last s) (_p_error s) (_d_error s) (_i_error s) (_cmd s)
    (_last_time s) (i s).
Definition set_p_error_last v (s : PID) : PID :=
  mkPID (num_dofs s) (_p_gain s) (_i_gain s) (_d_gain s) (_i_min s) (_i_max s)
    v (_p_error s) (_d_error s) (_i_error s) (_cmd s) (_last_time s) (i s).
Definition set_p_error v (s : PID) : PID :=
  mkPID (num_dofs s) (_p_gain s) (_i_gain s) (_d_gain s) (_i_min s) (_i_max s)
    (_p_error_last s) v (_d_error s) (_i_error s) (_cmd s) (_last_time s) (i s).
Definition set_d_error v (s : PID) : PID :=
  mkPID (num_dofs s) (_p_gain s) (_i_gain s) (_d_gain s) (_i_min s) (_i_max s)
    (_p_error_last s) (_p_error s) v (_i_error s) (_cmd s) (_last_time s) (i s).
Definition set_i_error v (s : PID) : PID :=
  mkPID (num_dofs s) (_p_gain s) (_i_gain s) (_d_gain s) (_i_min s) (_i_max s)
    (_p_error_last s) (_p_error s) (_d_error s) v (_cmd s) (_last_time s) (i s).
Definition set_cmd v (s : PID) : PID :=
  mkPID (num_dofs s) (_p_gain s) (_i_gain s) (_d_gain s) (_i_min s) (_i_max s)
    (_p_error_last s) (_p_error s) (_d_error s) (_i_error s) v (_last_time s) (i s).
Definition set_last_time v (s : PID) : PID :=
  mkPID (num_dofs s) (_p_gain s) (_i_gain s) (_d_gain s) (_i_min s) (_i_max s)
    (_p_error_last s) (_p_error s) (_d_error s) (_i_error s) (_cmd s) v (i s).
Definition set_i v (s : PID) : PID :=
  mkPID (num_dofs s) (_p_gain s) (_i_gain s) (_d_gain s) (_i_min s) (_i_max s)
    (_p_error_last s) (_p_error s) (_d_error s) (_i_error s) (_cmd s)
    (_last_time s) v.

(** [PID.reset] *)
Definition reset (s : PID) : PID :=
  let n := num_dofs s in
  mkPID n (_p_gain s) (_i_gain s) (_d_gain s) (_i_min s) (_i_max s)
    (np.zeros n 1) (np.zeros n 1) (np.zeros n 1) (np.zeros n 1)
    (np.zeros n n) None (i s).

(** [PID.set_gains] *)
Definition set_gains (p_gain i_gain d_gain : np.ndarray) (i_min i_max : float)
  (s : PID) : PID :=
  mkPID (num_dofs s) p_gain i_gain d_gain i_min i_max
    (_p_error_last s) (_p_error s) (_d_error s) (_i_error s) (_cmd s)
    (_last_time s) (i s).

(** [PID.__init__]: the attributes do not exist before; the blank object
    below only gives [set_gains] and [reset] something to overwrite. *)
Definition blank : PID :=
  mkPID 0 [] [] [] 0%float 0%float [] [] [] [] [] None 0%Z.

Definition __init__ (p_gain i_gain d_gain : np.ndarray) (i_min i_max : float) : PID :=
  set_i 0%Z (reset (set_gains p_gain i_gain d_gain i_min i_max (set_num_dofs 6 blank))).

(** The read-only properties. *)
Definition p_gain (s : PID) := _p_gain s.
Definition i_gain (s : PID) := _i_gain s.
Definition d_gain (s : PID) := _d_gain s.
Definition i_max (s : PID) := _i_max s.
Definition i_min (s : PID) := _i_min s.
Definition p_error (s : PID) := _p_error s.
Definition i_error (s : PID) := _i_error s.
Definition d_error (s : PID) := _d_error s.
Definition cmd (s : PID) := _cmd s.
Definition last_time (s : PID) := _last_time s.

(** [dt == 0 or math.isnan(dt) or math.isinf(dt)] *)
Definition degenerate (dt : float) : bool :=
  (PrimFloat.eqb dt 0%float) || is_nan dt || is_infinity dt.

(** The first block of [update_PID]: the time step, from the argument or from
    the clock reading [cur_time] ([time.time()]). *)
Definition derive_dt (dt : option float) (cur_time : float) : M PID float :=
  match dt with
  | Some d => ret d
  | None =>
      (s <- get_ ;;
       t <- match _last_time s with
            | None => (modify (set_last_time (Some cur_time)) ;; ret cur_time)
            | Some t => ret t
            end ;;
       let d := PrimFloat.sub cur_time t in
       modify (set_last_time (Some cur_time)) ;;
       ret d)%py
  end.

(** The three contributions, the locals [p_term], [i_term] and [d_term]. *)
Record terms : Type := mkTerms {
  p_term : np.ndarray;
  i_term : np.ndarray;
  d_term : np.ndarray
}.

(** The body of [update_PID] after the degenerate-[dt] test, up to the sum.
    Arrays are values here: the error argument is taken to be an array of its
    own, sharing no memory with the array that [+=] updates in place (the one
    that the [i_error] accessor hands out). *)
Definition pid_terms (dt : float) : M PID terms :=
  (s <- get_ ;;
   p_term <- lift (np.mul (_p_gain s) (_p_error s)) ;;
   ie <- lift (np.iadd (_i_error s) (np.smul dt (_p_error s))) ;;
   modify (set_i_error ie) ;;
   i_term <- lift (np.mul (_i_gain s) ie) ;;
   diff <- lift (np.sub (_p_error s) (_p_error_last s)) ;;
   let de := np.sdiv diff dt in
   modify (set_d_error de) ;;
   modify (set_p_error_last (_p_error s)) ;;
   d_term <- lift (np.mul (_d_gain s) de) ;;
   ret (mkTerms p_term i_term d_term))%py.

(** [PID.update_PID(p_error, dt=None)] *)
Definition update_PID (p_error : np.ndarray) (dt : option float)
  (cur_time : float) : M PID np.ndarray :=
  (dt <- derive_dt dt cur_time ;;
   modify (set_p_error p_error) ;;
   if degenerate dt then
     s <- get_ ;;
     ret (np.zeros (num_dofs s) (num_dofs s))
   else
     t <- pid_terms dt ;;
     pi <- lift (np.add (p_term t) (i_term t)) ;;
     c <- lift (np.add pi (d_term t)) ;;
     modify (set_cmd c) ;;
     ret c)%py.

(** [k] calls with the same error and the same explicit time step; stops at
    the first call that raises. *)
Fixpoint repeat_update (k : nat) (e : np.ndarray) (dt : float) : M PID unit :=
  match k with
  | O => ret tt
  | S k' => (repeat_update k' e dt ;; update_PID e (Some dt) 0%float ;; ret tt)%py
  end.

End pid.

(** ** demo_recorder.py *)

Module demo_recorder.

(** The messages ([geometry_msgs], [sensor_msgs]); a stamp is a clock reading
    in nanoseconds. *)
Record Vector3 : Type := mkVector3 { x : float; y : float; z : float }.

Record Quaternion : Type := mkQuaternion {
  qx : float; qy : float; qz : float; qw : float
}.

Record Header : Type := mkHeader { stamp : Z; frame_id : string }.

Record Twist : Type := mkTwist { linear : Vector3; angular : Vector3 }.

Record TwistStamped : Type := mkTwistStamped { header : Header; twist : Twist }.

Record Wrench : Type := mkWrench { force : Vector3; torque : Vector3 }.

Record WrenchStamped : Type := mkWrenchStamped {
  wheader : Header; wrench : Wrench
}.

Record TransformStamped : Type := mkTransformStamped {
  translation : Vector3; rotation : Quaternion
}.

Record JointState : Type := mkJointState {
  name : list string; position : list float; velocity : list float
}.

(** [TwistStamped()]: every field at its default. *)
Definition TwistStamped_default : TwistStamped :=
  mkTwistStamped (mkHeader 0%Z EmptyString)
    (mkTwist (mkVector3 0 0 0) (mkVector3 0 0 0)).

(** What the node sends out: twists to the servo node, joint velocities to
    the forward velocity controller, warnings to the logger. *)
Inductive event : Type :=
| Publish_twist (msg : TwistStamped)
| Publish_vel (data : list float)
| Log_warn (e : exn).

(** The attributes of the node that the callbacks read or assign. [curr_force]
    does not exist before the first completed conditioning. *)
Record TestVel : Type := mkTestVel {
  num_dofs : nat;
  joint_names : option (list string);
  initial_joint_positions : option (list float);
  joint_positions : option (list float);
  reached_start : bool;
  reached_goal : bool;
  curr_pos : option np.ndarray;
  curr_vel : option np.ndarray;
  interaction : bool;
  can_move : bool;
  cmd : np.ndarray;
  Kp : float;
  Kd : float;
  current_twist : TwistStamped;
  latest_wrench : option WrenchStamped;
  curr_force : option Vector3
}.

Definition set_joint_names (v : option (list string)) (s : TestVel) : TestVel :=
  mkTestVel (num_dofs s) v (initial_joint_positions s) (joint_positions s)
    (reached_start s) (reached_goal s) (curr_pos s) (curr_vel s)
    (interaction s) (can_move s) (cmd s) (Kp s) (Kd s) (current_twist s)
    (latest_wrench s) (curr_force s).
Definition set_initial_joint_positions (v : option (list float)) (s : TestVel) : TestVel :=
  mkTestVel (num_dofs s) (joint_names s) v (joint_positions s)
    (reached_start s) (reached_goal s) (curr_pos s) (curr_vel s)
    (interaction s) (can_move s) (cmd s) (Kp s) (Kd s) (current_twist s)
    (latest_wrench s) (curr_force s).
Definition set_joint_positions (v : option (list float)) (s : TestVel) : TestVel :=
  mkTestVel (num_dofs s) (joint_names s) (initial_joint_positions s) v
    (reached_start s) (reached_goal s) (curr_pos s) (curr_vel s)
    (interaction s) (can_move s) (cmd s) (Kp s) (Kd s) (current_twist s)
    (latest_wrench s) (curr_force s).
Definition set_reached_start (v : bool) (s : TestVel) : TestVel :=
  mkTestVel (num_dofs s) (joint_names s) (initial_joint_positions s)
    (joint_positions s) v (reached_goal s) (curr_pos s) (curr_vel s)
    (interaction s) (can_move s) (cmd s) (Kp s) (Kd s) (current_twist s)
    (latest_wrench s) (curr_force s).
Definition set_reached_goal (v : bool) (s : TestVel) : TestVel :=
  mkTestVel (num_dofs s) (joint_names s) (initial_joint_positions s)
    (joint_positions s) (reached_start s) v (curr_pos s) (curr_vel s)
    (interaction s) (can_move s) (cmd s) (Kp s) (Kd s) (current_twist s)
    (latest_wrench s) (curr_force s).
Definition set_curr_pos (v : option np.ndarray) (s : TestVel) : TestVel :=
  mkTestVel (num_dofs s) (joint_names s) (initial_joint_positions s)
    (joint_positions s) (reached_start s) (reached_goal s) v (curr_vel s)
    (interaction s) (can_move s) (cmd s) (Kp s) (Kd s) (current_twist s)
    (latest_wrench s) (curr_force s).
Definition set_curr_vel (v : option np.ndarray) (s : TestVel) : TestVel :=
  mkTestVel (num_dofs s) (joint_names s) (initial_joint_positions s)
    (joint_positions s) (reached_start s) (reached_goal s) (curr_pos s) v
    (interaction s) (can_move s) (cmd s) (Kp s) (Kd s) (current_twist s)
    (latest_wrench s) (curr_force s).
Definition set_interaction (v : bool) (s : TestVel) : TestVel :=
  mkTestVel (num_dofs s) (joint_names s) (initial_joint_positions s)
    (joint_positions s) (reached_start s) (reached_goal s) (curr_pos s)
    (curr_vel s) v (can_move s) (cmd s) (Kp s) (Kd s) (current_twist s)
    (latest_wrench s) (curr_force s).
Definition set_can_move (v : bool) (s : TestVel) : TestVel :=
  mkTestVel (num_dofs s) (joint_names s) (initial_joint_positions s)
    (joint_positions s) (reached_start s) (reached_goal s) (curr_pos s)
    (curr_vel s) (interaction s) v (cmd s) (Kp s) (Kd s) (current_twist s)
    (latest_wrench s) (curr_force s).
Definition set_cmd (v : np.ndarray) (s : TestVel) : TestVel :=
  mkTestVel (num_dofs s) (joint_names s) (initial_joint_positions s)
    (joint_positions s) (reached_start s) (reached_goal s) (curr_pos s)
    (curr_vel s) (interaction s) (can_move s) v (Kp s) (Kd s)
    (current_twist s) (latest_wrench s) (curr_force s).
Definition set_current_twist (v : TwistStamped) (s : TestVel) : TestVel :=
  mkTestVel (num_dofs s) (joint_names s) (initial_joint_positions s)
    (joint_positions s) (reached_start s) (reached_goal s) (curr_pos s)
    (curr_vel s) (interaction s) (can_move s) (cmd s) (Kp s) (Kd s) v
    (latest_wrench s) (curr_force s).
Definition set_latest_wrench (v : option WrenchStamped) (s : TestVel) : TestVel :=
  mkTestVel (num_dofs s) (joint_names s) (initial_joint_positions s)
    (joint_positions s) (reached_start s) (reached_goal s) (curr_pos s)
    (curr_vel s) (interaction s) (can_move s) (cmd s) (Kp s) (Kd s)
    (current_twist s) v (curr_force s).
Definition set_curr_force (v : option Vector3) (s : TestVel) : TestVel :=
  mkTestVel (num_dofs s) (joint_names s) (initial_joint_positions s)
    (joint_positions s) (reached_start s) (reached_goal s) (curr_pos s)
    (curr_vel s) (interaction s) (can_move s) (cmd s) (Kp s) (Kd s)
    (current_twist s) (latest_wrench s) v.

(** The node and what it has sent so far. *)
Record World : Type := mkWorld { self : TestVel; sent : list event }.

Definition upd (f : TestVel -> TestVel) : M World unit :=
  modify (fun w => mkWorld (f (self w)) (sent w)).

Definition emit (e : event) : M World unit :=
  modify (fun w => mkWorld (self w) (sent w ++ [e])).

(** The collaborators: [tf_buffer.lookup_transform(target, source, Time())],
    scipy's [Rotation.from_quat(q).apply(v)], the clock, the trajectory
    controller of the [ferl] package, and the power operator of the runtime.
    [pow2 v] is what [v ** 2] evaluates to on a field of a [Vector3]: the
    result of the mathematical library's [pow], which is not always the
    correctly rounded product of [v] with itself, or an exception
    (OverflowError on a Python float whose square is out of range). *)
Record Env : Type := mkEnv {
  lookup_transform : string -> string -> res TransformStamped;
  R_apply : Quaternion -> Vector3 -> res Vector3;
  now : Z;
  get_command : np.ndarray -> np.ndarray -> res np.ndarray;
  path_start_T : option float;
  path_end_T : option float;
  pow2 : float -> res float
}.

(** [TestVel.wrench_callback] *)
Definition wrench_callback (msg : WrenchStamped) : M World unit :=
  upd (set_latest_wrench (Some msg)).

(** [TestVel.transform_vector] *)
Definition transform_vector (env : Env) (transform : TransformStamped)
  (vector : Vector3) : res Vector3 :=
  let q := rotation transform in
  match R_apply env q vector with
  | inr rotated_vector =>
      ok (mkVector3 (x rotated_vector) (y rotated_vector) (z rotated_vector))
  | inl e => raise_ e
  end.

(** [math.sqrt(v)]: ValueError on a negative argument (minus zero and
    not-a-number pass); the root itself is correctly rounded. *)
Definition math_sqrt (v : float) : res float :=
  if PrimFloat.ltb v 0 then raise_ ValueError else ok (PrimFloat.sqrt v).

(** [math.sqrt(v.x ** 2 + v.y ** 2 + v.z ** 2)]: the three squares are
    evaluated from left to right by the runtime, the two additions are
    binary64 additions. *)
Definition magnitude (pow2 : float -> res float) (v : Vector3) : res float :=
  match pow2 (x v) with
  | inl e => raise_ e
  | inr sx =>
      match pow2 (y v) with
      | inl e => raise_ e
      | inr sy =>
          match pow2 (z v) with
          | inl e => raise_ e
          | inr sz => math_sqrt ((sx + sy) + sz)%float
          end
      end
  end.

(** [TestVel.nullify_small_magnitudes] *)
Definition nullify_small_magnitudes (pow2 : float -> res float)
  (vector : Vector3) (threshold : float) : res Vector3 :=
  match magnitude pow2 vector with
  | inl e => raise_ e
  | inr magnitude =>
      if (PrimFloat.ltb magnitude threshold) || is_nan magnitude
      then ok (mkVector3 0 0 0)
      else ok vector
  end.

(** Python's [a / b] on floats. *)
Definition truediv (a b : float) : res float :=
  if PrimFloat.eqb b 0 then raise_ ZeroDivisionError else ok (a / b)%float.

(** One axis of the compliance law:
    [(1 / self.Kp) * signal - self.Kd * previous]. *)
Definition compliance_axis (s : TestVel) (signal previous : float) : res float :=
  match truediv 1 (Kp s) with
  | inr inv => ok (inv * signal - Kd s * previous)%float
  | inl e => raise_ e
  end.

Definition tf_failure (e : exn) : bool :=
  match e with
  | LookupException | ConnectivityException | ExtrapolationException => true
  | _ => false
  end.

(** The body of the [try] of [timer_callback]. *)
Definition timer_body (env : Env) (latest : WrenchStamped) : M World unit :=
  (ft_to_tool0 <-
     lift (lookup_transform env "tool0" (frame_id (wheader latest))) ;;
   force <- lift (transform_vector env ft_to_tool0 (force (wrench latest))) ;;
   torque <- lift (transform_vector env ft_to_tool0 (torque (wrench latest))) ;;
   cf <- lift (nullify_small_magnitudes (pow2 env) force 3) ;;
   upd (set_curr_force (Some cf)) ;;
   torque <- lift (nullify_small_magnitudes (pow2 env) torque 3) ;;
   m <- lift (magnitude (pow2 env) cf) ;;
   if PrimFloat.ltb m 3 then
     upd (set_interaction false) ;;
     upd (set_can_move true) ;;
     upd (fun s => set_cmd (np.zeros (num_dofs s) (num_dofs s)) s)
   else
     upd (set_interaction true) ;;
     upd (set_can_move false) ;;
     upd (fun s => set_cmd (np.zeros (num_dofs s) (num_dofs s)) s) ;;
     w <- get_ ;;
     let s := self w in
     let prev := twist (current_twist s) in
     lx <- lift (compliance_axis s (x cf) (x (linear prev))) ;;
     ly <- lift (compliance_axis s (y cf) (y (linear prev))) ;;
     lz <- lift (compliance_axis s (z cf) (z (linear prev))) ;;
     ax <- lift (compliance_axis s (x torque) (x (angular prev))) ;;
     ay <- lift (compliance_axis s (y torque) (y (angular prev))) ;;
     az <- lift (compliance_axis s (z torque) (z (angular prev))) ;;
     let twist :=
       mkTwistStamped (mkHeader (now env) "tool0")
         (mkTwist (mkVector3 lx ly lz) (mkVector3 ax ay az)) in
     upd (set_current_twist twist) ;;
     emit (Publish_twist twist))%py.

(** [TestVel.timer_callback], the 500 Hz force-processing tick. *)
Definition timer_callback (env : Env) : M World unit :=
  (w <- get_ ;;
   match latest_wrench (self w) with
   | None => ret tt
   | Some latest =>
       try_except (timer_body env latest) tf_failure
         (fun e => emit (Log_warn e))
   end)%py.

(** [np.roll(a, 1)] on a one-dimensional array. *)
Definition roll1 {A : Type} (a : list A) : list A :=
  match rev a with
  | [] => []
  | last :: front => last :: rev front
  end.

(** [a.reshape(n, 1)] *)
Definition reshape_col (a : list float) (n : nat) : res np.ndarray :=
  if (length a =? n)%nat then ok (map (fun v => [v]) a) else raise_ ValueError.

(** [TestVel.joint_angles_callback] *)
Definition joint_angles_callback (env : Env) (msg : JointState) : M World unit :=
  (w <- get_ ;;
   (match joint_names (self w) with
    | None => upd (set_joint_names (Some (roll1 (name msg))))
    | Some _ => ret tt
    end) ;;
   (match initial_joint_positions (self w) with
    | None =>
        upd (set_initial_joint_positions (Some (roll1 (position msg)))) ;;
        upd (set_joint_positions (Some (roll1 (position msg))))
    | Some _ => ret tt
    end) ;;
   w1 <- get_ ;;
   curr_pos <- lift (reshape_col (roll1 (position msg)) (num_dofs (self w1))) ;;
   upd (set_curr_pos (Some curr_pos)) ;;
   curr_vel <- lift (reshape_col (roll1 (velocity msg)) (num_dofs (self w1))) ;;
   upd (set_curr_vel (Some curr_vel)) ;;
   c <- lift (get_command env curr_pos curr_vel) ;;
   upd (set_cmd c) ;;
   (match path_start_T env with
    | Some _ => upd (set_reached_start true)
    | None => ret tt
    end) ;;
   (match path_end_T env with
    | Some _ => upd (set_reached_goal true)
    | None => ret tt
    end))%py.

(** [[self.cmd[i][i] for i in range(n)]] *)
Fixpoint diagonal_from (c : np.ndarray) (i n : nat) : res (list float) :=
  match n with
  | O => ok []
  | S n' =>
      match np.item c i i with
      | inl e => raise_ e
      | inr v =>
          match diagonal_from c (S i) n' with
          | inl e => raise_ e
          | inr vs => ok (v :: vs)
          end
      end
  end.

(** [len(self.joint_names)]; [len(None)] is a TypeError. *)
Definition len_joint_names (s : TestVel) : res nat :=
  match joint_names s with
  | Some names => ok (length names)
  | None => raise_ TypeError
  end.

(** [TestVel.publish_trajectory], the 10 Hz emission tick. *)
Definition publish_trajectory : M World unit :=
  (w <- get_ ;;
   match initial_joint_positions (self w) with
   | None => ret tt
   | Some _ =>
       if can_move (self w) then
         n <- lift (len_joint_names (self w)) ;;
         joint_vel <- lift (diagonal_from (cmd (self w)) 0 n) ;;
         emit (Publish_vel joint_vel)
       else ret tt
   end)%py.

End demo_recorder.

Arguments demo_recorder.magnitude : simpl never.
Arguments demo_recorder.nullify_small_magnitudes : simpl never.
Arguments demo_recorder.transform_vector : simpl never.

(** ** The Euclidean magnitude, as a relation *)

Module norm.

Import demo_recorder.

(** [m] is the magnitude of [v] when the runtime answers the three squares
    [sx], [sy], [sz]: the root of their sum, added from left to right. *)
Definition is_norm (pow2 : float -> res float) (v : Vector3) (m : float) : Prop :=
  exists sx sy sz : float,
    pow2 (x v) = inr sx /\ pow2 (y v) = inr sy /\ pow2 (z v) = inr sz /\
    PrimFloat.ltb ((sx + sy) + sz) 0 = false /\
    m = PrimFloat.sqrt ((sx + sy) + sz).

(** The suppression test on a magnitude. *)
Definition below (m threshold : float) : bool :=
  PrimFloat.ltb m threshold || is_nan m.

(** The vector after conditioning, given its magnitude. *)
Definition conditioned (v : Vector3) (m threshold : float) : Vector3 :=
  if below m threshold then mkVector3 0 0 0 else v.

End norm.

(** ** Readings of the statements that the code does not satisfy as written *)

Module stated.

Import pid.

(** Off-diagonal entries compare equal to zero (either sign of zero). *)
Definition off_diagonal_zero (n : nat) (c : np.ndarray) : bool :=
  forallb (fun i =>
    forallb (fun j => (i =? j)%nat || PrimFloat.eqb (np.get c i j) 0%float)
      (seq 0 n)) (seq 0 n).

Definition is_diagonal (n : nat) (c : np.ndarray) : bool :=
  np.has_shape n n c && off_diagonal_zero n c.

(** Every returning non-degenerate call leaves a diagonal square command. *)
Definition command_always_diagonal : Prop :=
  forall (s s' : PID) (e c : np.ndarray) (dt cur : float),
    degenerate dt = false ->
    update_PID e (Some dt) cur s = (s', inr c) ->
    is_diagonal (num_dofs s) c = true /\ _cmd s' = c.

(** [n * dt * e] as Python evaluates it on a float [e]. *)
Definition n_dt_e (k : nat) (dt e : float) : float :=
  (of_uint63 (Uint63.of_Z (Z.of_nat k)) * dt * e)%float.

(** After [k] calls from a reset controller the integral error of every
    degree of freedom is the product [k * dt * e]. *)
Definition integral_is_product : Prop :=
  forall (s s' : PID) (e : np.ndarray) (dt : float) (k : nat),
    np.has_shape (num_dofs s) 1 e = true ->
    degenerate dt = false ->
    PrimFloat.ltb 0 dt = true ->
    repeat_update k e dt (reset s) = (s', inr tt) ->
    forall i, (i < num_dofs s)%nat ->
      np.get (_i_error s') i 0 = n_dt_e k dt (np.get e i 0).

Import demo_recorder.

(** A tick whose conditioned force is below the threshold keeps the command
    matrix it found. *)
Definition free_motion_keeps_command : Prop :=
  forall (env : Env) (w : World) (latest : WrenchStamped)
         (tf : TransformStamped) (f t : Vector3),
    latest_wrench (self w) = Some latest ->
    lookup_transform env "tool0" (frame_id (wheader latest)) = inr tf ->
    transform_vector env tf (force (wrench latest)) = inr f ->
    transform_vector env tf (torque (wrench latest)) = inr t ->
    forall (mf mt mc : float),
    norm.is_norm (pow2 env) f mf ->
    norm.is_norm (pow2 env) t mt ->
    norm.is_norm (pow2 env) (norm.conditioned f mf 3) mc ->
    PrimFloat.ltb mc 3 = true ->
    let w' := fst (timer_callback env w) in
    interaction (self w') = false /\
    can_move (self w') = true /\
    cmd (self w') = cmd (self w).

(** Conditioning answers for every vector, with the zero vector or with the
    vector itself; read in a runtime in which [1e200 ** 2] raises
    OverflowError, as it does on Python floats. *)
Definition conditioning_always_answers : Prop :=
  forall (pow2 : float -> res float),
    pow2 1e200%float = inl OverflowError ->
    forall (v : Vector3) (threshold : float),
      exists r, nullify_small_magnitudes pow2 v threshold = inr r /\
                (r = mkVector3 0 0 0 \/ r = v).

(** The emitter publishes whenever motion is permitted and a position sample
    has been stored. *)
Definition emitter_always_publishes : Prop :=
  forall (w : World) (p : list float),
    initial_joint_positions (self w) = Some p ->
    can_move (self w) = true ->
    exists data,
      publish_trajectory w =
        (mkWorld (self w) (sent w ++ [Publish_vel data]), inr tt).

End stated.

(** ** Shapes and the accumulated sum *)

Module shapes.

Import pid.

(** The gains are [num_dofs] x [num_dofs] matrices. *)
Definition gains_square (s : PID) : bool :=
  let n := num_dofs s in
  np.has_shape n n (_p_gain s) && np.has_shape n n (_i_gain s) &&
  np.has_shape n n (_d_gain s).

(** The gains are diagonal matrices. *)
Definition gains_diagonal (s : PID) : bool :=
  let n := num_dofs s in
  stated.is_diagonal n (_p_gain s) && stated.is_diagonal n (_i_gain s) &&
  stated.is_diagonal n (_d_gain s).

(** The stored errors are columns, as [reset] leaves them. *)
Definition columns (s : PID) : bool :=
  let n := num_dofs s in
  np.has_shape n 1 (_i_error s) && np.has_shape n 1 (_p_error_last s).

(** [dt * e] added [k] times to zero, one addition per call. *)
Fixpoint accumulate (k : nat) (dt e : float) : float :=
  match k with
  | O => 0%float
  | S k' => (accumulate k' dt e + dt * e)%float
  end.

(** The integral and derivative errors after a regular call with error
    column [e] and step [dt]. *)
Definition next_i_error (s : PID) (e : np.ndarray) (dt : float) : np.ndarray :=
  np.tabulate (num_dofs s) 1 (fun i j =>
    (np.get (_i_error s) i j + dt * np.get e i j)%float).

Definition next_d_error (s : PID) (e : np.ndarray) (dt : float) : np.ndarray :=
  np.tabulate (num_dofs s) 1 (fun i j =>
    ((np.get e i j - np.get (_p_error_last s) i j) / dt)%float).

(** The command of that call on square gains: entry (i, j) sums the three
    gains of that entry against the errors of degree of freedom [i]. *)
Definition next_cmd (s : PID) (e : np.ndarray) (dt : float) : np.ndarray :=
  np.tabulate (num_dofs s) (num_dofs s) (fun i j =>
    (np.get (_p_gain s) i j * np.get e i 0
     + np.get (_i_gain s) i j * np.get (next_i_error s e dt) i 0
     + np.get (_d_gain s) i j * np.get (next_d_error s e dt) i 0)%float).

End shapes.

(** ** Sample objects *)

Module sample.

Import demo_recorder.

(** A controller with identity gain matrices and a unit error column. *)
Definition controller : pid.PID :=
  pid.__init__ (np.eye 6) (np.eye 6) (np.eye 6) 0 0.

Definition unit_error : np.ndarray := np.ones 6 1.

(** The controller after one regular call, and the command of that call. *)
Definition after_regular : pid.PID :=
  fst (pid.update_PID unit_error (Some 0.1%float) 0 controller).

Definition first_command : np.ndarray :=
  np.tabulate 6 6 (fun i j => if (i =? j)%nat then 11.1%float else 0%float).

(** A frame lookup that succeeds with the identity rotation, one that fails. *)
Definition identity_transform : TransformStamped :=
  mkTransformStamped (mkVector3 0 0 0) (mkQuaternion 0 0 0 1).

(** A power operator for the samples. It is applied only to values on which
    Python floats give the same answer: those whose product with themselves
    is exact (0, small integers, infinity, not-a-number) and those whose
    square is out of range (OverflowError). *)
Definition pow2 (v : float) : res float :=
  if is_finite v && is_infinity (v * v) then raise_ OverflowError
  else ok (v * v)%float.

Definition env_ok : Env :=
  mkEnv (fun _ _ => inr identity_transform) (fun _ v => inr v) 7%Z
    (fun _ _ => inr (np.zeros 3 3)) None None pow2.

Definition env_failing (e : exn) : Env :=
  mkEnv (fun _ _ => inl e) (fun _ v => inr v) 7%Z
    (fun _ _ => inr (np.zeros 3 3)) None None pow2.

Definition wrench_of (f : Vector3) : WrenchStamped :=
  mkWrenchStamped (mkHeader 0%Z "ft_frame") (mkWrench f (mkVector3 0 0 0)).

(** A node that tracks three joints, holds the command diag(1, 2, 3) and has
    last seen the force [f]. *)
Definition node (f : Vector3) (may_move : bool) : TestVel :=
  mkTestVel 3 (Some ["j1"; "j2"; "j3"]%string) (Some [0; 0; 0]%float)
    (Some [0; 0; 0]%float) false false None None false may_move
    [[1; 0; 0]; [0; 2; 0]; [0; 0; 3]]%float 1 0.1 TwistStamped_default
    (Some (wrench_of f)) None.

Definition world (f : Vector3) (may_move : bool) : World :=
  mkWorld (node f may_move) [].

End sample.

(** ** demo_recorder.py: the parameter converters *)

Module params.

(** [s.split(':')]: one more part than there are colons. *)
Fixpoint split_colon (s : string) : list string :=
  match s with
  | EmptyString => [EmptyString]
  | String c r =>
      if Ascii.eqb c ":"%char then EmptyString :: split_colon r
      else
        match split_colon r with
        | h :: t => String c h :: t
        | [] => [String c EmptyString]
        end
  end.

(** [s.split(':', 1)]: cut at the first colon only. *)
Fixpoint split_colon_once (s : string) : list string :=
  match s with
  | EmptyString => [EmptyString]
  | String c r =>
      if Ascii.eqb c ":"%char then [EmptyString; r]
      else
        match split_colon_once r with
        | h :: t => String c h :: t
        | [] => [String c EmptyString]
        end
  end.

(** [key, value = parts]: ValueError unless there are exactly two parts. *)
Definition unpack2 {A : Type} (parts : list A) : res (A * A) :=
  match parts with
  | [a; b] => ok (a, b)
  | _ => raise_ ValueError
  end.

(** A [dict] with string keys, in insertion order; [d[k] = v] replaces the
    value of a key that is present and appends a new key. *)
Definition dict (V : Type) : Type := list (string * V).

Fixpoint dict_set {V : Type} (d : dict V) (k : string) (v : V) : dict V :=
  match d with
  | [] => [(k, v)]
  | (k', v') :: r =>
      if String.eqb k' k then (k', v) :: r else (k', v') :: dict_set r k v
  end.

Fixpoint dict_get {V : Type} (d : dict V) (k : string) : option V :=
  match d with
  | [] => None
  | (k', v') :: r => if String.eqb k' k then Some v' else dict_get r k
  end.

(** What [ast.literal_eval] does with a string: a value, a SyntaxError
    ([syntax = true]) or a ValueError ([syntax = false]), or some other
    exception. *)
Inductive evaluated (V : Type) : Type :=
| Literal (v : V)
| Malformed (syntax : bool)
| Failed (e : exn).

Arguments Literal {V} v.
Arguments Malformed {V} syntax.
Arguments Failed {V} e.

(** A converted parameter: the literal, or the string as it is. *)
Inductive converted (V : Type) : Type :=
| Value (v : V)
| Text (s : string).

Arguments Value {V} v.
Arguments Text {V} s.

Section Converters.

Context {V : Type}.

(** [float(value)] and [ast.literal_eval(value)], from Python. *)
Variable float_of_string : string -> res float.
Variable literal_eval : string -> evaluated V.



(** The loop of [convert_string_array_to_dict_of_lists]; here an exception
    of [literal_eval] is not handled. *)
Fixpoint convert_string_array_to_dict_of_lists_from (string_array : list string)
  (object_centers_dict : dict V) : res (dict V) :=
  match string_array with
  | [] => ok object_centers_dict
  | item :: rest =>
      match unpack2 (split_colon item) with
      | inl e => raise_ e
      | inr (key, value) =>
          match literal_eval value with
          | Literal v =>
              convert_string_array_to_dict_of_lists_from rest
                (dict_set object_centers_dict key v)
          | Malformed syntax =>
              raise_ (if syntax then SyntaxError else ValueError)
          | Failed e => raise_ e
          end
      end
  end.

Definition convert_string_array_to_dict_of_lists (string_array : list string)
  : res (dict V) :=
  convert_string_array_to_dict_of_lists_from string_array [].

(** [convert_string_to_appropriate_type] *)
Definition convert_string_to_appropriate_type (value_str : string)
  : res (converted V) :=
  match literal_eval value_str with
  | Literal v => ok (Value v)
  | Malformed _ => ok (Text value_str)
  | Failed e => raise_ e
  end.

(** The loop of [get_parameter_as_dict]. *)
Fixpoint get_parameter_as_dict_from (string_array : list string)
  (converted_dict : dict (converted V)) : res (dict (converted V)) :=
  match string_array with
  | [] => ok converted_dict
  | item :: rest =>
      match unpack2 (split_colon_once item) with
      | inl e => raise_ e
      | inr (key, value_str) =>
          match convert_string_to_appropriate_type value_str with
          | inl e => raise_ e
          | inr v =>
              get_parameter_as_dict_from rest (dict_set converted_dict key v)
          end
      end
  end.

(** [get_parameter_as_dict] *)
Definition get_parameter_as_dict (string_array : list string)
  : res (dict (converted V)) :=
  get_parameter_as_dict_from string_array [].

End Converters.

(** Whether a string holds a colon, and how many. *)
Fixpoint count_colons (s : string) : nat :=
  match s with
  | EmptyString => 0
  | String c r => (if Ascii.eqb c ":"%char then 1 else 0) + count_colons r
  end.

(** The value of the last item [key:value] whose key is [k]. *)
Fixpoint last_value (string_array : list string) (k : string) : option string :=
  match string_array with
  | [] => None
  | item :: rest =>
      match last_value rest k with
      | Some v => Some v
      | None =>
          match split_colon_once item with
          | [key; value] => if String.eqb key k then Some value else None
          | _ => None
          end
      end
  end.

(** What a value string is converted to when [literal_eval] raises nothing
    but ValueError or SyntaxError. *)
Definition converted_of {V : Type} (literal_eval : string -> evaluated V)
  (value_str : string) : converted V :=
  match literal_eval value_str with
  | Literal v => Value v
  | _ => Text value_str
  end.

(** A [literal_eval] for the samples: it reads the digits 0 and 1. *)
Definition sample_eval (s : string) : evaluated nat :=
  if String.eqb s "0" then Literal 0%nat
  else if String.eqb s "1" then Literal 1%nat
  else Malformed true.

End params.

(** ** Further predicates and sample objects *)

Module more.

Import demo_recorder.

(** Every entry of the array is a finite number. *)
Definition all_finite (A : np.ndarray) : bool :=
  forallb (forallb is_finite) A.

(** Every entry compares equal to zero. *)
Definition all_zero (r c : nat) (A : np.ndarray) : bool :=
  forallb (fun i =>
    forallb (fun j => PrimFloat.eqb (np.get A i j) 0%float) (seq 0 c))
    (seq 0 r).

(** One axis of the compliance law. *)
Definition law (s : TestVel) (signal previous : float) : float :=
  (1 / Kp s * signal - Kd s * previous)%float.


(** Two callbacks one after the other; the second does not run when the
    first raises. *)
Definition then_ (a b : M World unit) : M World unit := (a ;; b)%py.

(** A node like [sample.node] with another stiffness. *)
Definition node_with_Kp (k : float) (f : Vector3) : TestVel :=
  let s := sample.node f true in
  mkTestVel (num_dofs s) (joint_names s) (initial_joint_positions s)
    (joint_positions s) (reached_start s) (reached_goal s) (curr_pos s)
    (curr_vel s) (interaction s) (can_move s) (cmd s) k (Kd s)
    (current_twist s) (latest_wrench s) (curr_force s).

(** A node before the first joint-state message. *)
Definition fresh_node : TestVel :=
  mkTestVel 3 None None None false false None None false true
    (np.zeros 3 3) 1 0.1 TwistStamped_default None None.

(** A rotation library that rejects the quaternion. *)
Definition env_bad_rotation : Env :=
  mkEnv (fun _ _ => inr sample.identity_transform) (fun _ _ => inl ValueError)
    7%Z (fun _ _ => inr (np.zeros 3 3)) None None sample.pow2.

End more.

(** * Properties *)

(** ** Arrays *)

Lemma map_seq_length {A : Type} (f : nat -> A) (a n : nat) :
  length (map f (seq a n)) = n.
Proof. now rewrite length_map, length_seq. Qed.

Lemma nth_map_seq {A : Type} (f : nat -> A) (d : A) (n i : nat) :
  (i < n)%nat -> nth i (map f (seq 0 n)) d = f i.
Proof.
  intros Hi.
  rewrite (nth_indep _ d (f 0%nat)) by now rewrite map_seq_length.
  rewrite (map_nth f (seq 0 n) 0%nat i), seq_nth; auto.
Qed.

Lemma nrows_tabulate (r c : nat) f : np.nrows (np.tabulate r c f) = r.
Proof. apply map_seq_length. Qed.

Lemma ncols_tabulate (r c : nat) f :
  (0 < r)%nat -> np.ncols (np.tabulate r c f) = c.
Proof.
  intros Hr. destruct r as [|r]; [lia|].
  unfold np.tabulate. cbn [seq map np.ncols]. apply map_seq_length.
Qed.

Lemma get_tabulate (r c : nat) f (i j : nat) :
  (i < r)%nat -> (j < c)%nat -> np.get (np.tabulate r c f) i j = f i j.
Proof.
  intros Hi Hj. unfold np.get, np.tabulate.
  rewrite (nth_map_seq (fun i => map (fun j => f i j) (seq 0 c)) [] r i Hi).
  now apply nth_map_seq.
Qed.

Lemma has_shape_tabulate (r c : nat) f : np.has_shape r c (np.tabulate r c f) = true.
Proof.
  unfold np.has_shape, np.tabulate.
  apply andb_true_intro; split.
  - rewrite map_seq_length. apply Nat.eqb_refl.
  - apply forallb_forall. intros row Hrow.
    apply in_map_iff in Hrow.
    destruct Hrow as [i [<- _]]. rewrite map_seq_length. apply Nat.eqb_refl.
Qed.

Lemma has_shape_dims (r c : nat) (A : np.ndarray) :
  np.has_shape r c A = true -> (0 < r)%nat -> np.nrows A = r /\ np.ncols A = c.
Proof.
  unfold np.has_shape. intros H Hr.
  apply andb_prop in H. destruct H as [Hl Hall].
  apply Nat.eqb_eq in Hl. split; [exact Hl|].
  destruct A as [|row A]; [cbn in Hl; lia|].
  cbn in Hall. apply andb_prop in Hall. destruct Hall as [Hrow _].
  now apply Nat.eqb_eq in Hrow.
Qed.

Lemma get_zeros (r c i j : nat) : np.get (np.zeros r c) i j = 0%float.
Proof.
  unfold np.zeros.
  destruct (Nat.lt_ge_cases i r) as [Hi|Hi].
  - destruct (Nat.lt_ge_cases j c) as [Hj|Hj].
    + now apply get_tabulate.
    + unfold np.get, np.tabulate.
      rewrite (nth_map_seq (fun i => map (fun j => 0%float) (seq 0 c)) [] r i Hi).
      apply nth_overflow. now rewrite map_seq_length.
  - unfold np.get. rewrite (nth_overflow (np.tabulate r c _)).
    + now destruct j.
    + unfold np.tabulate. now rewrite map_seq_length.
Qed.

Lemma tabulate_ext (r c : nat) f g :
  (forall i j, (i < r)%nat -> (j < c)%nat -> f i j = g i j) ->
  np.tabulate r c f = np.tabulate r c g.
Proof.
  intros H. unfold np.tabulate.
  apply map_ext_in. intros i Hi. apply in_seq in Hi.
  apply map_ext_in. intros j Hj. apply in_seq in Hj.
  apply H; lia.
Qed.

Lemma has_shape_eq_tabulate (r c : nat) (A : np.ndarray) :
  np.has_shape r c A = true -> A = np.tabulate r c (np.get A).
Proof.
  unfold np.has_shape. intros H.
  apply andb_prop in H. destruct H as [Hl Hall].
  apply Nat.eqb_eq in Hl. rewrite forallb_forall in Hall.
  apply (nth_ext A (np.tabulate r c (np.get A)) [] []).
  - unfold np.tabulate. now rewrite map_seq_length.
  - intros i Hi. unfold np.tabulate.
    rewrite (nth_map_seq (fun i => map (fun j => np.get A i j) (seq 0 c)) [] r i)
      by lia.
    assert (Hrow : length (nth i A []) = c)
      by (apply Nat.eqb_eq, Hall, nth_In, Hi).
    apply (nth_ext _ _ 0%float 0%float).
    + now rewrite map_seq_length.
    + intros j Hj.
      rewrite (nth_map_seq (fun j => np.get A i j) 0%float c j) by lia.
      reflexivity.
Qed.

Lemma smul_tabulate (k : float) (r c : nat) f :
  np.smul k (np.tabulate r c f) = np.tabulate r c (fun i j => (k * f i j)%float).
Proof.
  unfold np.smul, np.tabulate. rewrite map_map.
  apply map_ext. intros i. now rewrite map_map.
Qed.

Lemma sdiv_tabulate (k : float) (r c : nat) f :
  np.sdiv (np.tabulate r c f) k = np.tabulate r c (fun i j => (f i j / k)%float).
Proof.
  unfold np.sdiv, np.tabulate. rewrite map_map.
  apply map_ext. intros i. now rewrite map_map.
Qed.

Lemma bidx_lt (d i : nat) : (i < d)%nat -> np.bidx d i = i.
Proof.
  intros Hi. unfold np.bidx.
  destruct (d =? 1)%nat eqn:E; [|reflexivity].
  apply Nat.eqb_eq in E. lia.
Qed.

Lemma bdim_same (n : nat) : np.bdim n n = Some n.
Proof. unfold np.bdim. now rewrite Nat.eqb_refl. Qed.

Lemma bdim_one_r (n : nat) : np.bdim n 1 = Some n.
Proof.
  unfold np.bdim. destruct (n =? 1)%nat eqn:E; [|reflexivity].
  apply Nat.eqb_eq in E. now subst.
Qed.

(** Two operands of one shape: the operator is applied entry by entry. *)
Lemma broadcast_same (f : float -> float -> float) (r c : nat) (A B : np.ndarray) :
  (0 < r)%nat ->
  np.has_shape r c A = true -> np.has_shape r c B = true ->
  np.broadcast f A B =
    inr (np.tabulate r c (fun i j => f (np.get A i j) (np.get B i j))).
Proof.
  intros Hr HA HB.
  destruct (has_shape_dims r c A HA Hr) as [HrA HcA].
  destruct (has_shape_dims r c B HB Hr) as [HrB HcB].
  unfold np.broadcast. rewrite HrA, HcA, HrB, HcB, !bdim_same.
  unfold ok. f_equal. apply tabulate_ext. intros i j Hi Hj.
  now rewrite !bidx_lt.
Qed.

(** A square matrix against a column: row [i] of the matrix meets entry [i]
    of the column. *)
Lemma broadcast_square_column (f : float -> float -> float) (n : nat)
  (G v : np.ndarray) :
  (0 < n)%nat ->
  np.has_shape n n G = true -> np.has_shape n 1 v = true ->
  np.broadcast f G v =
    inr (np.tabulate n n (fun i j => f (np.get G i j) (np.get v i 0))).
Proof.
  intros Hn HG Hv.
  destruct (has_shape_dims n n G HG Hn) as [HrG HcG].
  destruct (has_shape_dims n 1 v Hv Hn) as [Hrv Hcv].
  unfold np.broadcast. rewrite HrG, HcG, Hrv, Hcv, bdim_same, bdim_one_r.
  unfold ok. f_equal. apply tabulate_ext. intros i j Hi Hj.
  rewrite (bidx_lt n i Hi), (bidx_lt n j Hj). reflexivity.
Qed.

Lemma iadd_columns (n : nat) (A B : np.ndarray) :
  (0 < n)%nat ->
  np.has_shape n 1 A = true -> np.has_shape n 1 B = true ->
  np.iadd A B =
    inr (np.tabulate n 1 (fun i j => (np.get A i j + np.get B i j)%float)).
Proof.
  intros Hn HA HB. unfold np.iadd, np.add.
  rewrite (broadcast_same PrimFloat.add n 1 A B Hn HA HB).
  destruct (has_shape_dims n 1 A HA Hn) as [HrA HcA].
  rewrite nrows_tabulate, ncols_tabulate, HrA, HcA, !Nat.eqb_refl by exact Hn.
  reflexivity.
Qed.

(** ** Zeros in binary64 *)

Lemma is_zero_spec (g : float) :
  PrimFloat.eqb g 0 = true -> exists sg, Prim2SF g = S754_zero sg.
Proof.
  rewrite FloatAxioms.eqb_spec. change (Prim2SF 0) with (S754_zero false).
  destruct (Prim2SF g) as [sg|[|]| |[|] m ex]; cbn; try discriminate.
  intros _. now exists sg.
Qed.

Lemma is_finite_spec (v : float) :
  is_finite v = true ->
  (exists sg, Prim2SF v = S754_zero sg) \/
  (exists sg m ex, Prim2SF v = S754_finite sg m ex).
Proof.
  unfold is_finite, is_nan, is_infinity.
  rewrite !FloatAxioms.eqb_spec, abs_spec.
  change (Prim2SF infinity) with (S754_infinity false).
  destruct (Prim2SF v) as [sg|sg| |sg m ex].
  - intros _. left. now exists sg.
  - destruct sg; cbn; discriminate.
  - cbn. discriminate.
  - intros _. right. now exists sg, m, ex.
Qed.

(** A zero gain times a finite value is a zero. *)
Lemma mul_zero_finite (g v : float) :
  PrimFloat.eqb g 0 = true -> is_finite v = true ->
  PrimFloat.eqb (g * v) 0 = true.
Proof.
  intros Hg Hv.
  destruct (is_zero_spec g Hg) as [sg Hsg].
  rewrite FloatAxioms.eqb_spec, mul_spec, Hsg.
  change (Prim2SF 0) with (S754_zero false).
  destruct (is_finite_spec v Hv) as [[sv ->]|(sv & m & ex & ->)]; reflexivity.
Qed.

(** The sum of two zeros is a zero. *)
Lemma add_zero_zero (a b : float) :
  PrimFloat.eqb a 0 = true -> PrimFloat.eqb b 0 = true ->
  PrimFloat.eqb (a + b) 0 = true.
Proof.
  intros Ha Hb.
  destruct (is_zero_spec a Ha) as [sa Hsa].
  destruct (is_zero_spec b Hb) as [sb Hsb].
  rewrite FloatAxioms.eqb_spec, add_spec, Hsa, Hsb.
  change (Prim2SF 0) with (S754_zero false).
  destruct sa, sb; reflexivity.
Qed.

(** ** The degenerate time step *)

Lemma degenerate_values (dt : float) :
  In dt [0%float; nan; infinity; neg_infinity] -> pid.degenerate dt = true.
Proof.
  intros [<-|[<-|[<-|[<-|[]]]]]; reflexivity.
Qed.

Lemma update_PID_degenerate (s : pid.PID) (e : np.ndarray) (dt cur : float) :
  pid.degenerate dt = true ->
  pid.update_PID e (Some dt) cur s =
    (pid.set_p_error e s, inr (np.zeros (pid.num_dofs s) (pid.num_dofs s))).
Proof.
  intros Hd. unfold pid.update_PID, pid.derive_dt, bind, ret, modify, get_.
  now rewrite Hd.
Qed.


(** C3: when [dt] is 0, not-a-number, +infinity or -infinity, [update_PID]
    returns the all-zero [num_dofs] x [num_dofs] matrix and leaves [i_error],
    [d_error], [p_error_last] (and [cmd]) as they were. With an explicit [dt]
    [last_time] is untouched; when [dt] is derived from the clock and turns
    out degenerate, [last_time] is the clock reading and nothing more. *)
Theorem update_PID_degenerate_dt_preserves_state :
  forall (s : pid.PID) (e : np.ndarray) (cur : float),
    let n := pid.num_dofs s in
    (forall dt, In dt [0%float; nan; infinity; neg_infinity] ->
       let r := pid.update_PID e (Some dt) cur s in
       snd r = inr (np.zeros n n) /\
       (forall i j, np.get (np.zeros n n) i j = 0%float) /\
       pid.i_error (fst r) = pid.i_error s /\
       pid.d_error (fst r) = pid.d_error s /\
       pid._p_error_last (fst r) = pid._p_error_last s /\
       pid.last_time (fst r) = pid.last_time s) /\
    (let t0 := match pid.last_time s with Some t => t | None => cur end in
     pid.degenerate (cur - t0) = true ->
       let r := pid.update_PID e None cur s in
       snd r = inr (np.zeros n n) /\
       pid.i_error (fst r) = pid.i_error s /\
       pid.d_error (fst r) = pid.d_error s /\
       pid._p_error_last (fst r) = pid._p_error_last s /\
       pid.last_time (fst r) = Some cur).
Proof.
  intros s e cur n. split.
  - intros dt Hdt r. subst r.
    rewrite (update_PID_degenerate s e dt cur (degenerate_values dt Hdt)).
    cbn [fst snd]. repeat split; auto using get_zeros.
  - intros t0 Hd r. subst r t0.
    unfold pid.update_PID, pid.derive_dt, bind, ret, modify, get_.
    unfold pid.last_time in Hd.
    destruct (pid._last_time s) as [t|]; cbn; rewrite Hd; cbn; repeat split.
Qed.

(** What a returning call on the regular path has computed. *)
Lemma update_PID_regular_inv (s s' : pid.PID) (e c : np.ndarray) (dt cur : float) :
  pid.degenerate dt = false ->
  pid.update_PID e (Some dt) cur s = (s', inr c) ->
  exists pt ie it df dm pi,
    np.mul (pid._p_gain s) e = inr pt /\
    np.iadd (pid._i_error s) (np.smul dt e) = inr ie /\
    np.mul (pid._i_gain s) ie = inr it /\
    np.sub e (pid._p_error_last s) = inr df /\
    np.mul (pid._d_gain s) (np.sdiv df dt) = inr dm /\
    np.add pt it = inr pi /\
    np.add pi dm = inr c /\
    s' = pid.mkPID (pid.num_dofs s) (pid._p_gain s) (pid._i_gain s)
           (pid._d_gain s) (pid._i_min s) (pid._i_max s)
           e e (np.sdiv df dt) ie c (pid._last_time s) (pid.i s).
Proof.
  intros Hd. unfold pid.update_PID, pid.derive_dt, pid.pid_terms.
  unfold bind, ret, modify, get_, lift. rewrite Hd. cbn.
  destruct (np.mul (pid._p_gain s) e) as [x|pt] eqn:H1; [discriminate|].
  destruct (np.iadd (pid._i_error s) (np.smul dt e)) as [x|ie] eqn:H2;
    [discriminate|].
  cbn. destruct (np.mul (pid._i_gain s) ie) as [x|it] eqn:H3; [discriminate|].
  destruct (np.sub e (pid._p_error_last s)) as [x|df] eqn:H4; [discriminate|].
  cbn. destruct (np.mul (pid._d_gain s) (np.sdiv df dt)) as [x|dm] eqn:H5;
    [discriminate|].
  cbn. destruct (np.add pt it) as [x|pi] eqn:H6; [discriminate|].
  destruct (np.add pi dm) as [x|c'] eqn:H7; [discriminate|].
  cbn. intros H. injection H as Hs Hc. subst c'.
  exists pt, ie, it, df, dm, pi. repeat split; auto.
Qed.

(** The converse: when every array operation succeeds, the call returns. *)
Lemma update_PID_regular_run (s : pid.PID) (e : np.ndarray) (dt cur : float)
  pt ie it df dm pi c :
  pid.degenerate dt = false ->
  np.mul (pid._p_gain s) e = inr pt ->
  np.iadd (pid._i_error s) (np.smul dt e) = inr ie ->
  np.mul (pid._i_gain s) ie = inr it ->
  np.sub e (pid._p_error_last s) = inr df ->
  np.mul (pid._d_gain s) (np.sdiv df dt) = inr dm ->
  np.add pt it = inr pi ->
  np.add pi dm = inr c ->
  pid.update_PID e (Some dt) cur s =
    (pid.mkPID (pid.num_dofs s) (pid._p_gain s) (pid._i_gain s)
       (pid._d_gain s) (pid._i_min s) (pid._i_max s)
       e e (np.sdiv df dt) ie c (pid._last_time s) (pid.i s), inr c).
Proof.
  intros Hd H1 H2 H3 H4 H5 H6 H7.
  unfold pid.update_PID, pid.derive_dt, pid.pid_terms.
  unfold bind, ret, modify, get_, lift. rewrite Hd. cbn.
  rewrite H1, H2. cbn. rewrite H3, H4. cbn. rewrite H5. cbn.
  rewrite H6, H7. reflexivity.
Qed.

(** C10: on the degenerate path the stored [p_error] is the new argument and
    the zero matrix that is returned is not stored: [cmd] still answers with
    the command of the last regular call. *)
Theorem update_PID_degenerate_dt_sets_p_error_keeps_cmd :
  forall (s1 : pid.PID) (e2 : np.ndarray) (dt2 cur2 : float),
    pid.degenerate dt2 = true ->
    let r := pid.update_PID e2 (Some dt2) cur2 s1 in
    snd r = inr (np.zeros (pid.num_dofs s1) (pid.num_dofs s1)) /\
    pid.p_error (fst r) = e2 /\
    pid.cmd (fst r) = pid.cmd s1 /\
    (forall (s : pid.PID) (e1 c1 : np.ndarray) (dt1 cur1 : float),
       pid.degenerate dt1 = false ->
       pid.update_PID e1 (Some dt1) cur1 s = (s1, inr c1) ->
       pid.cmd (fst r) = c1).
Proof.
  intros s1 e2 dt2 cur2 Hd r. subst r.
  rewrite (update_PID_degenerate s1 e2 dt2 cur2 Hd). cbn [fst snd].
  repeat split.
  intros s e1 c1 dt1 cur1 Hd1 Hrun.
  destruct (update_PID_regular_inv s s1 e1 c1 dt1 cur1 Hd1 Hrun)
    as (pt & ie & it & df & dm & pi & _ & _ & _ & _ & _ & _ & _ & ->).
  reflexivity.
Qed.

Lemma update_PID_degenerate_dt_preserves_state_witness :
  let r := pid.update_PID sample.unit_error (Some nan) 0 sample.after_regular in
  let r' := pid.update_PID sample.unit_error None 0 sample.controller in
  snd r = inr (np.zeros 6 6) /\
  pid.i_error (fst r) = pid.i_error sample.after_regular /\
  pid.last_time (fst r) = None /\
  snd r' = inr (np.zeros 6 6) /\
  pid.last_time (fst r') = Some 0%float.
Proof.
  destruct (update_PID_degenerate_dt_preserves_state
              sample.after_regular sample.unit_error 0) as [H _].
  destruct (H nan (or_intror (or_introl eq_refl))) as (H1 & _ & H2 & _ & _ & H3).
  destruct (update_PID_degenerate_dt_preserves_state
              sample.controller sample.unit_error 0) as [_ H'].
  destruct (H' eq_refl) as (H4 & _ & _ & _ & H5).
  repeat split; assumption.
Defined.

Lemma update_PID_degenerate_dt_sets_p_error_keeps_cmd_witness :
  let r := pid.update_PID (np.zeros 6 1) (Some 0%float) 0 sample.after_regular in
  pid.p_error (fst r) = np.zeros 6 1 /\
  pid.cmd (fst r) = sample.first_command /\
  np.get (pid.cmd (fst r)) 0 0 = 11.1%float /\
  snd r = inr (np.zeros 6 6).
Proof.
  destruct (update_PID_degenerate_dt_sets_p_error_keeps_cmd
              sample.after_regular (np.zeros 6 1) 0 0 eq_refl)
    as (H1 & H2 & _ & H3).
  assert (Hc : pid.cmd
                 (fst (pid.update_PID (np.zeros 6 1) (Some 0%float) 0
                         sample.after_regular)) = sample.first_command).
  { apply (H3 sample.controller sample.unit_error sample.first_command
              0.1%float 0%float); reflexivity. }
  split; [exact H2|]. split; [exact Hc|]. split; [|exact H1].
  rewrite Hc. reflexivity.
Defined.

(** ** Signal conditioning *)

Lemma magnitude_of_norm (pow2 : float -> res float)
  (v : demo_recorder.Vector3) (m : float) :
  norm.is_norm pow2 v m -> demo_recorder.magnitude pow2 v = inr m.
Proof.
  intros (sx & sy & sz & Hx & Hy & Hz & Hneg & ->).
  unfold demo_recorder.magnitude. rewrite Hx, Hy, Hz.
  unfold demo_recorder.math_sqrt. now rewrite Hneg.
Qed.

(** The relation says no more than the code: a magnitude that the code
    returns is the root of the sum of the squares. *)
Lemma norm_of_magnitude (pow2 : float -> res float)
  (v : demo_recorder.Vector3) (m : float) :
  demo_recorder.magnitude pow2 v = inr m -> norm.is_norm pow2 v m.
Proof.
  unfold demo_recorder.magnitude, demo_recorder.math_sqrt.
  destruct (pow2 (demo_recorder.x v)) as [e|sx] eqn:Hx; [discriminate|].
  destruct (pow2 (demo_recorder.y v)) as [e|sy] eqn:Hy; [discriminate|].
  destruct (pow2 (demo_recorder.z v)) as [e|sz] eqn:Hz; [discriminate|].
  destruct (PrimFloat.ltb (sx + sy + sz) 0) eqn:Hneg; [discriminate|].
  unfold ok. intros H. injection H as <-.
  exists sx, sy, sz. repeat split; assumption.
Qed.

Lemma nullify_of_norm (pow2 : float -> res float)
  (v : demo_recorder.Vector3) (m threshold : float) :
  norm.is_norm pow2 v m ->
  demo_recorder.nullify_small_magnitudes pow2 v threshold =
    inr (norm.conditioned v m threshold).
Proof.
  intros H. unfold demo_recorder.nullify_small_magnitudes.
  rewrite (magnitude_of_norm pow2 v m H).
  unfold norm.conditioned, norm.below.
  now destruct (PrimFloat.ltb m threshold || is_nan m).
Qed.

(** C7, as stated, fails on Python floats: a vector with a component of
    1e200 is neither zeroed nor returned, the square raises OverflowError. *)
Lemma conditioning_always_answers_fails : ~ stated.conditioning_always_answers.
Proof.
  intros H.
  destruct (H sample.pow2 eq_refl (demo_recorder.mkVector3 1e200 0 0) 3%float)
    as (r & Hr & _).
  vm_compute in Hr. discriminate Hr.
Qed.

(** C7, amended: when the runtime answers the three squares [x ** 2],
    [y ** 2], [z ** 2] of the input, [nullify_small_magnitudes] returns the
    exact zero vector if the root of their sum is below the threshold or is
    not-a-number, whatever the direction of the input, and the input itself
    otherwise; when one of the squares raises (OverflowError on a Python
    float such as 1e200), that exception leaves the call and no vector is
    returned. *)
Theorem nullify_small_magnitudes_spec :
  forall (pow2 : float -> res float) (v : demo_recorder.Vector3)
         (threshold : float),
    let nullified := demo_recorder.nullify_small_magnitudes pow2 v threshold in
    (forall sx sy sz : float,
       pow2 (demo_recorder.x v) = inr sx ->
       pow2 (demo_recorder.y v) = inr sy ->
       pow2 (demo_recorder.z v) = inr sz ->
       let sum := ((sx + sy) + sz)%float in
       let m := PrimFloat.sqrt sum in
       (PrimFloat.ltb sum 0 = true -> nullified = inl ValueError) /\
       (PrimFloat.ltb sum 0 = false ->
          (PrimFloat.ltb m threshold = true \/ is_nan m = true ->
             nullified = inr (demo_recorder.mkVector3 0 0 0)) /\
          (PrimFloat.ltb m threshold = false -> is_nan m = false ->
             nullified = inr v))) /\
    (forall e : exn,
       pow2 (demo_recorder.x v) = inl e \/
       (exists sx, pow2 (demo_recorder.x v) = inr sx /\
                   pow2 (demo_recorder.y v) = inl e) \/
       (exists sx sy, pow2 (demo_recorder.x v) = inr sx /\
                      pow2 (demo_recorder.y v) = inr sy /\
                      pow2 (demo_recorder.z v) = inl e) ->
       nullified = inl e).
Proof.
  intros pow2 v threshold nullified. subst nullified. split.
  - intros sx sy sz Hx Hy Hz sum m.
    unfold demo_recorder.nullify_small_magnitudes, demo_recorder.magnitude,
      demo_recorder.math_sqrt.
    rewrite Hx, Hy, Hz. subst m sum. split.
    + intros Hneg. now rewrite Hneg.
    + intros Hneg. rewrite Hneg. unfold ok. split.
      * intros [H|H]; rewrite H; [reflexivity|]. now rewrite orb_true_r.
      * intros H1 H2. now rewrite H1, H2.
  - unfold demo_recorder.nullify_small_magnitudes, demo_recorder.magnitude.
    intros e [Hx|[(sx & Hx & Hy)|(sx & sy & Hx & Hy & Hz)]];
      rewrite Hx; try rewrite Hy; try rewrite Hz; reflexivity.
Qed.

Lemma nullify_small_magnitudes_spec_witness :
  demo_recorder.nullify_small_magnitudes sample.pow2
    (demo_recorder.mkVector3 0 (-2) 0) 3 = inr (demo_recorder.mkVector3 0 0 0) /\
  demo_recorder.nullify_small_magnitudes sample.pow2
    (demo_recorder.mkVector3 nan 1 0) 3 = inr (demo_recorder.mkVector3 0 0 0) /\
  demo_recorder.nullify_small_magnitudes sample.pow2
    (demo_recorder.mkVector3 0 (-4) 3) 3 = inr (demo_recorder.mkVector3 0 (-4) 3) /\
  demo_recorder.nullify_small_magnitudes sample.pow2
    (demo_recorder.mkVector3 0 1e200 0) 3 = inl OverflowError.
Proof.
  split; [|split; [|split]].
  - destruct (nullify_small_magnitudes_spec sample.pow2
                (demo_recorder.mkVector3 0 (-2) 0) 3) as [H _].
    destruct (H 0%float 4%float 0%float eq_refl eq_refl eq_refl) as [_ H'].
    destruct (H' eq_refl) as [Hz _]. apply Hz. left. reflexivity.
  - destruct (nullify_small_magnitudes_spec sample.pow2
                (demo_recorder.mkVector3 nan 1 0) 3) as [H _].
    destruct (H nan 1%float 0%float eq_refl eq_refl eq_refl) as [_ H'].
    destruct (H' eq_refl) as [Hz _]. apply Hz. right. reflexivity.
  - destruct (nullify_small_magnitudes_spec sample.pow2
                (demo_recorder.mkVector3 0 (-4) 3) 3) as [H _].
    destruct (H 0%float 16%float 9%float eq_refl eq_refl eq_refl) as [_ H'].
    destruct (H' eq_refl) as [_ Hk]. apply Hk; reflexivity.
  - destruct (nullify_small_magnitudes_spec sample.pow2
                (demo_recorder.mkVector3 0 1e200 0) 3) as [_ H].
    apply H. right. left. exists 0%float. split; reflexivity.
Defined.

(** ** The force-processing tick *)

Section Tick.

Import demo_recorder.

Variables (env : Env) (w : World) (latest : WrenchStamped).
Hypothesis Hlatest : latest_wrench (self w) = Some latest.

(** A failed frame lookup of one of the three handled kinds: the node is
    left as it was and a warning is logged. *)
Lemma timer_callback_lookup_failed (e : exn) :
  lookup_transform env "tool0" (frame_id (wheader latest)) = inl e ->
  tf_failure e = true ->
  timer_callback env w = (mkWorld (self w) (sent w ++ [Log_warn e]), inr tt).
Proof.
  intros Hl He.
  unfold timer_callback, timer_body, try_except, bind, get_, lift, emit, modify.
  rewrite Hlatest. cbn. rewrite Hl. cbn. now rewrite He.
Qed.

Variables (tf : TransformStamped) (f t : Vector3) (mf mt mc : float).
Hypothesis Hlookup :
  lookup_transform env "tool0" (frame_id (wheader latest)) = inr tf.
Hypothesis Hforce : transform_vector env tf (force (wrench latest)) = inr f.
Hypothesis Htorque : transform_vector env tf (torque (wrench latest)) = inr t.
Hypothesis Hnf : norm.is_norm (pow2 env) f mf.
Hypothesis Hnt : norm.is_norm (pow2 env) t mt.

Let cf := norm.conditioned f mf 3.
Let ct := norm.conditioned t mt 3.
Let n := num_dofs (self w).

Hypothesis Hnc : norm.is_norm (pow2 env) cf mc.

(** The tick up to the test of line 306. *)
Ltac run_conditioning :=
  unfold timer_callback, timer_body, try_except, bind, get_, lift, upd, emit,
    modify;
  rewrite Hlatest; cbn; rewrite Hlookup; cbn; rewrite Hforce, Htorque; cbn;
  rewrite (nullify_of_norm (pow2 env) f mf 3 Hnf); cbn;
  rewrite (nullify_of_norm (pow2 env) t mt 3 Hnt); cbn;
  fold cf ct; rewrite (magnitude_of_norm (pow2 env) cf mc Hnc); cbn.

(** The branch taken when the conditioned force is below the threshold. *)
Lemma timer_callback_free :
  PrimFloat.ltb mc 3 = true ->
  timer_callback env w =
    (mkWorld
       (set_cmd (np.zeros n n)
          (set_can_move true
             (set_interaction false (set_curr_force (Some cf) (self w)))))
       (sent w), inr tt).
Proof.
  intros Hm. run_conditioning. rewrite Hm. reflexivity.
Qed.

(** The twist of the compliance law for this tick. *)
Let law (signal previous : float) : float :=
  (1 / Kp (self w) * signal - Kd (self w) * previous)%float.

Let new_twist : TwistStamped :=
  let prev := twist (current_twist (self w)) in
  mkTwistStamped (mkHeader (now env) "tool0")
    (mkTwist
       (mkVector3 (law (x cf) (x (linear prev))) (law (y cf) (y (linear prev)))
          (law (z cf) (z (linear prev))))
       (mkVector3 (law (x ct) (x (angular prev))) (law (y ct) (y (angular prev)))
          (law (z ct) (z (angular prev))))).

(** The other branch, for a stiffness that can be inverted. *)
Lemma timer_callback_interaction :
  PrimFloat.ltb mc 3 = false ->
  PrimFloat.eqb (Kp (self w)) 0 = false ->
  timer_callback env w =
    (mkWorld
       (set_current_twist new_twist
          (set_cmd (np.zeros n n)
             (set_can_move false
                (set_interaction true (set_curr_force (Some cf) (self w))))))
       (sent w ++ [Publish_twist new_twist]), inr tt).
Proof.
  intros Hm Hk. run_conditioning. rewrite Hm. cbn.
  unfold compliance_axis, truediv. cbn. rewrite Hk. reflexivity.
Qed.

(** With a stiffness of zero the interaction branch raises on [1 / self.Kp],
    after the mode has been switched. *)
Lemma timer_callback_zero_stiffness :
  PrimFloat.ltb mc 3 = false ->
  PrimFloat.eqb (Kp (self w)) 0 = true ->
  timer_callback env w =
    (mkWorld
       (set_cmd (np.zeros n n)
          (set_can_move false
             (set_interaction true (set_curr_force (Some cf) (self w)))))
       (sent w), inl ZeroDivisionError).
Proof.
  intros Hm Hk. run_conditioning. rewrite Hm. cbn.
  unfold compliance_axis, truediv. cbn. rewrite Hk. reflexivity.
Qed.

End Tick.

(** The conditioned force and the test of line 306, from the magnitude of the
    force itself; the zero vector needs [0.0 ** 2] to be [0.0]. *)
Lemma conditioned_norm (pow2 : float -> res float)
  (f : demo_recorder.Vector3) (mf : float) :
  pow2 0%float = inr 0%float ->
  norm.is_norm pow2 f mf ->
  exists mc,
    norm.is_norm pow2 (norm.conditioned f mf 3) mc /\
    PrimFloat.ltb mc 3 = norm.below mf 3.
Proof.
  intros H0 Hn. unfold norm.conditioned.
  destruct (norm.below mf 3) eqn:Hb.
  - exists 0%float. split; [|reflexivity].
    exists 0%float, 0%float, 0%float. cbn. repeat split; assumption.
  - exists mf. split; [exact Hn|].
    unfold norm.below in Hb. now apply orb_false_elim in Hb.
Qed.

(** C8: when the frame lookup of a tick fails with a lookup, connectivity or
    extrapolation failure, the tick assigns nothing: the interaction mode, the
    motion-permitted flag, the command matrix and the previous twist (and
    every other attribute) keep their values, and the only effect is one
    logged warning. *)
Theorem timer_callback_lookup_failure_keeps_state :
  forall (env : demo_recorder.Env) (w : demo_recorder.World)
         (latest : demo_recorder.WrenchStamped) (e : exn),
    demo_recorder.latest_wrench (demo_recorder.self w) = Some latest ->
    demo_recorder.lookup_transform env "tool0"
      (demo_recorder.frame_id (demo_recorder.wheader latest)) = inl e ->
    In e [LookupException; ConnectivityException; ExtrapolationException] ->
    let r := demo_recorder.timer_callback env w in
    let s := demo_recorder.self w in
    let s' := demo_recorder.self (fst r) in
    snd r = inr tt /\
    s' = s /\
    demo_recorder.interaction s' = demo_recorder.interaction s /\
    demo_recorder.can_move s' = demo_recorder.can_move s /\
    demo_recorder.cmd s' = demo_recorder.cmd s /\
    demo_recorder.current_twist s' = demo_recorder.current_twist s /\
    demo_recorder.sent (fst r) =
      demo_recorder.sent w ++ [demo_recorder.Log_warn e].
Proof.
  intros env w latest e Hlatest Hl He r s s'. subst r s s'.
  assert (Hk : demo_recorder.tf_failure e = true)
    by (destruct He as [<-|[<-|[<-|[]]]]; reflexivity).
  rewrite (timer_callback_lookup_failed env w latest Hlatest e Hl Hk).
  cbn. repeat split.
Qed.

Lemma timer_callback_lookup_failure_keeps_state_witness :
  let w := sample.world (demo_recorder.mkVector3 5 0 0) true in
  let r := demo_recorder.timer_callback
             (sample.env_failing ExtrapolationException) w in
  demo_recorder.self (fst r) = demo_recorder.self w /\
  demo_recorder.sent (fst r) = [demo_recorder.Log_warn ExtrapolationException].
Proof.
  intros w r.
  destruct (timer_callback_lookup_failure_keeps_state
              (sample.env_failing ExtrapolationException) w
              (sample.wrench_of (demo_recorder.mkVector3 5 0 0))
              ExtrapolationException eq_refl eq_refl
              (or_intror (or_intror (or_introl eq_refl))))
    as (_ & H1 & _ & _ & _ & _ & H2).
  split; assumption.
Defined.

(** Magnitudes in the sample runtime. *)
Lemma sample_norm_zero :
  norm.is_norm sample.pow2 (demo_recorder.mkVector3 0 0 0) 0.
Proof. exists 0%float, 0%float, 0%float. repeat split. Qed.

Lemma sample_norm_2 :
  norm.is_norm sample.pow2 (demo_recorder.mkVector3 2 0 0) 2.
Proof. exists 4%float, 0%float, 0%float. repeat split. Qed.

Lemma sample_norm_4 :
  norm.is_norm sample.pow2 (demo_recorder.mkVector3 4 0 0) 4.
Proof. exists 16%float, 0%float, 0%float. repeat split. Qed.

Lemma sample_norm_5 :
  norm.is_norm sample.pow2 (demo_recorder.mkVector3 5 0 0) 5.
Proof. exists 25%float, 0%float, 0%float. repeat split. Qed.

(** C6: after conditioning, a conditioned force magnitude below 3.0 puts the
    node in free motion with motion permitted and the command matrix reset to
    zero, and nothing is sent; any other magnitude puts it in interaction
    with motion not permitted and the command matrix reset to zero, and what
    is sent is the twist of the compliance law on the conditioned force and
    torque, in frame tool0, which is also the stored previous twist, and no
    joint-velocity command. The magnitudes are the roots of the sums of the
    squares that the runtime answers. *)
Theorem timer_callback_mode_switch :
  forall (env : demo_recorder.Env) (w : demo_recorder.World)
         (latest : demo_recorder.WrenchStamped)
         (tf : demo_recorder.TransformStamped) (f t : demo_recorder.Vector3)
         (mf mt mc : float),
    demo_recorder.latest_wrench (demo_recorder.self w) = Some latest ->
    demo_recorder.lookup_transform env "tool0"
      (demo_recorder.frame_id (demo_recorder.wheader latest)) = inr tf ->
    demo_recorder.transform_vector env tf
      (demo_recorder.force (demo_recorder.wrench latest)) = inr f ->
    demo_recorder.transform_vector env tf
      (demo_recorder.torque (demo_recorder.wrench latest)) = inr t ->
    norm.is_norm (demo_recorder.pow2 env) f mf ->
    norm.is_norm (demo_recorder.pow2 env) t mt ->
    let cf := norm.conditioned f mf 3 in
    let ct := norm.conditioned t mt 3 in
    norm.is_norm (demo_recorder.pow2 env) cf mc ->
    let n := demo_recorder.num_dofs (demo_recorder.self w) in
    let r := demo_recorder.timer_callback env w in
    let s := demo_recorder.self w in
    let s' := demo_recorder.self (fst r) in
    let prev := demo_recorder.twist (demo_recorder.current_twist s) in
    let kp := demo_recorder.Kp s in
    let kd := demo_recorder.Kd s in
    (PrimFloat.ltb mc 3 = true ->
       snd r = inr tt /\
       demo_recorder.interaction s' = false /\
       demo_recorder.can_move s' = true /\
       demo_recorder.cmd s' = np.zeros n n /\
       demo_recorder.sent (fst r) = demo_recorder.sent w) /\
    (PrimFloat.ltb mc 3 = false ->
     PrimFloat.eqb kp 0 = false ->
       snd r = inr tt /\
       demo_recorder.interaction s' = true /\
       demo_recorder.can_move s' = false /\
       demo_recorder.cmd s' = np.zeros n n /\
       exists tw : demo_recorder.TwistStamped,
         demo_recorder.sent (fst r) =
           demo_recorder.sent w ++ [demo_recorder.Publish_twist tw] /\
         demo_recorder.current_twist s' = tw /\
         demo_recorder.frame_id (demo_recorder.header tw) = "tool0"%string /\
         demo_recorder.twist tw =
           demo_recorder.mkTwist
             (demo_recorder.mkVector3
                (1 / kp * demo_recorder.x cf
                 - kd * demo_recorder.x (demo_recorder.linear prev))
                (1 / kp * demo_recorder.y cf
                 - kd * demo_recorder.y (demo_recorder.linear prev))
                (1 / kp * demo_recorder.z cf
                 - kd * demo_recorder.z (demo_recorder.linear prev)))
             (demo_recorder.mkVector3
                (1 / kp * demo_recorder.x ct
                 - kd * demo_recorder.x (demo_recorder.angular prev))
                (1 / kp * demo_recorder.y ct
                 - kd * demo_recorder.y (demo_recorder.angular prev))
                (1 / kp * demo_recorder.z ct
                 - kd * demo_recorder.z (demo_recorder.angular prev)))).
Proof.
  intros env w latest tf f t mf mt mc Hlatest Hl Hf Ht Hnf Hnt cf ct Hnc
    n r s s' prev kp kd.
  subst r s'. split.
  - intros Hm.
    rewrite (timer_callback_free env w latest Hlatest tf f t mf mt mc
               Hl Hf Ht Hnf Hnt Hnc Hm).
    cbn. repeat split.
  - intros Hm Hk.
    rewrite (timer_callback_interaction env w latest Hlatest tf f t mf mt mc
               Hl Hf Ht Hnf Hnt Hnc Hm Hk).
    cbn. repeat split. eexists. repeat split.
Qed.

Lemma timer_callback_mode_switch_witness :
  let quiet := demo_recorder.timer_callback sample.env_ok
                 (sample.world (demo_recorder.mkVector3 2 0 0) false) in
  let pushed := demo_recorder.timer_callback sample.env_ok
                  (sample.world (demo_recorder.mkVector3 5 0 0) true) in
  (demo_recorder.interaction (demo_recorder.self (fst quiet)) = false /\
   demo_recorder.can_move (demo_recorder.self (fst quiet)) = true /\
   demo_recorder.cmd (demo_recorder.self (fst quiet)) = np.zeros 3 3 /\
   demo_recorder.sent (fst quiet) = []) /\
  (demo_recorder.interaction (demo_recorder.self (fst pushed)) = true /\
   demo_recorder.can_move (demo_recorder.self (fst pushed)) = false /\
   demo_recorder.cmd (demo_recorder.self (fst pushed)) = np.zeros 3 3).
Proof.
  intros quiet pushed. split.
  - destruct (timer_callback_mode_switch sample.env_ok
                (sample.world (demo_recorder.mkVector3 2 0 0) false)
                (sample.wrench_of (demo_recorder.mkVector3 2 0 0))
                sample.identity_transform
                (demo_recorder.mkVector3 2 0 0) (demo_recorder.mkVector3 0 0 0)
                2%float 0%float 0%float
                eq_refl eq_refl eq_refl eq_refl
                sample_norm_2 sample_norm_zero sample_norm_zero) as [H _].
    destruct (H eq_refl) as (_ & H1 & H2 & H3 & H4).
    repeat split; assumption.
  - destruct (timer_callback_mode_switch sample.env_ok
                (sample.world (demo_recorder.mkVector3 5 0 0) true)
                (sample.wrench_of (demo_recorder.mkVector3 5 0 0))
                sample.identity_transform
                (demo_recorder.mkVector3 5 0 0) (demo_recorder.mkVector3 0 0 0)
                5%float 0%float 5%float
                eq_refl eq_refl eq_refl eq_refl
                sample_norm_5 sample_norm_zero sample_norm_5) as [_ H].
    destruct (H eq_refl eq_refl) as (_ & H1 & H2 & H3 & _).
    repeat split; assumption.
Defined.

(** ** The compliance law *)

(** C5: on a tick that reaches the compliance step, every linear axis of the
    new twist is [(1 / Kp) * force_axis - Kd * previous_linear_axis] and every
    angular axis is [(1 / Kp) * torque_axis - Kd * previous_angular_axis], on
    the conditioned force and torque; the twist is sent and becomes the
    previous twist of the next tick. With [Kp = 1.0], [Kd = 0.1], a previous
    linear x of 0.0 and a conditioned force x of 4.0 the new linear x is
    4.0. The step is reached when the magnitude of the conditioned force,
    the root of the sum of the squares that the runtime answers, is not
    below 3.0. *)
Theorem timer_callback_compliance_law :
  forall (env : demo_recorder.Env) (w : demo_recorder.World)
         (latest : demo_recorder.WrenchStamped)
         (tf : demo_recorder.TransformStamped) (f t : demo_recorder.Vector3)
         (mf mt mc : float),
    demo_recorder.latest_wrench (demo_recorder.self w) = Some latest ->
    demo_recorder.lookup_transform env "tool0"
      (demo_recorder.frame_id (demo_recorder.wheader latest)) = inr tf ->
    demo_recorder.transform_vector env tf
      (demo_recorder.force (demo_recorder.wrench latest)) = inr f ->
    demo_recorder.transform_vector env tf
      (demo_recorder.torque (demo_recorder.wrench latest)) = inr t ->
    norm.is_norm (demo_recorder.pow2 env) f mf ->
    norm.is_norm (demo_recorder.pow2 env) t mt ->
    let cf := norm.conditioned f mf 3 in
    let ct := norm.conditioned t mt 3 in
    norm.is_norm (demo_recorder.pow2 env) cf mc ->
    let kp := demo_recorder.Kp (demo_recorder.self w) in
    let kd := demo_recorder.Kd (demo_recorder.self w) in
    let prev := demo_recorder.twist
                  (demo_recorder.current_twist (demo_recorder.self w)) in
    PrimFloat.ltb mc 3 = false ->
    PrimFloat.eqb kp 0 = false ->
    exists tw : demo_recorder.TwistStamped,
      let new := demo_recorder.twist tw in
      snd (demo_recorder.timer_callback env w) = inr tt /\
      demo_recorder.sent (fst (demo_recorder.timer_callback env w)) =
        demo_recorder.sent w ++ [demo_recorder.Publish_twist tw] /\
      demo_recorder.current_twist
        (demo_recorder.self (fst (demo_recorder.timer_callback env w))) = tw /\
      (let lin := demo_recorder.linear in
       let ang := demo_recorder.angular in
       demo_recorder.x (lin new) =
         (1 / kp * demo_recorder.x cf - kd * demo_recorder.x (lin prev))%float /\
       demo_recorder.y (lin new) =
         (1 / kp * demo_recorder.y cf - kd * demo_recorder.y (lin prev))%float /\
       demo_recorder.z (lin new) =
         (1 / kp * demo_recorder.z cf - kd * demo_recorder.z (lin prev))%float /\
       demo_recorder.x (ang new) =
         (1 / kp * demo_recorder.x ct - kd * demo_recorder.x (ang prev))%float /\
       demo_recorder.y (ang new) =
         (1 / kp * demo_recorder.y ct - kd * demo_recorder.y (ang prev))%float /\
       demo_recorder.z (ang new) =
         (1 / kp * demo_recorder.z ct - kd * demo_recorder.z (ang prev))%float) /\
      (kp = 1%float -> kd = 0.1%float ->
       demo_recorder.x (demo_recorder.linear prev) = 0%float ->
       demo_recorder.x cf = 4%float ->
       demo_recorder.x (demo_recorder.linear new) = 4%float).
Proof.
  intros env w latest tf f t mf mt mc Hlatest Hl Hf Ht Hnf Hnt cf ct Hnc
    kp kd prev Hm Hk.
  rewrite (timer_callback_interaction env w latest Hlatest tf f t mf mt mc
             Hl Hf Ht Hnf Hnt Hnc Hm Hk).
  eexists. cbn. split; [reflexivity|]. split; [reflexivity|].
  split; [reflexivity|]. split; [repeat split|].
  fold cf kp kd prev. intros -> -> -> ->. reflexivity.
Qed.

Lemma timer_callback_compliance_law_witness :
  let r := demo_recorder.timer_callback sample.env_ok
             (sample.world (demo_recorder.mkVector3 4 0 0) true) in
  exists tw : demo_recorder.TwistStamped,
    demo_recorder.sent (fst r) = [demo_recorder.Publish_twist tw] /\
    demo_recorder.x (demo_recorder.linear (demo_recorder.twist tw)) = 4%float.
Proof.
  intros r.
  destruct (timer_callback_compliance_law sample.env_ok
              (sample.world (demo_recorder.mkVector3 4 0 0) true)
              (sample.wrench_of (demo_recorder.mkVector3 4 0 0))
              sample.identity_transform
              (demo_recorder.mkVector3 4 0 0) (demo_recorder.mkVector3 0 0 0)
              4%float 0%float 4%float
              eq_refl eq_refl eq_refl eq_refl
              sample_norm_4 sample_norm_zero sample_norm_4 eq_refl eq_refl)
    as (tw & _ & Hsent & _ & _ & Hx).
  exists tw. split; [exact Hsent|].
  apply Hx; reflexivity.
Defined.

(** ** Free motion and the command matrix *)

(** C2, as stated, fails: a tick with a force sample of magnitude 2.0 finds
    the command diag(1, 2, 3) and leaves the zero matrix. *)
Lemma free_motion_keeps_command_fails : ~ stated.free_motion_keeps_command.
Proof.
  intros H.
  specialize (H sample.env_ok
                (sample.world (demo_recorder.mkVector3 2 0 0) true)
                (sample.wrench_of (demo_recorder.mkVector3 2 0 0))
                sample.identity_transform
                (demo_recorder.mkVector3 2 0 0) (demo_recorder.mkVector3 0 0 0)
                eq_refl eq_refl eq_refl eq_refl
                2%float 0%float 0%float
                sample_norm_2 sample_norm_zero sample_norm_zero eq_refl).
  destruct H as (_ & _ & H). vm_compute in H. discriminate H.
Qed.

(** C2, amended: a tick whose conditioned force magnitude is below 3.0 puts
    the node in free motion with motion permitted, and the command matrix is
    the zero matrix afterwards, whatever the trajectory-tracking path had
    stored in it. The magnitude is the root of the sum of the squares that
    the runtime answers for the conditioned force. *)
Theorem timer_callback_free_motion_zeroes_command :
  forall (env : demo_recorder.Env) (w : demo_recorder.World)
         (latest : demo_recorder.WrenchStamped)
         (tf : demo_recorder.TransformStamped) (f t : demo_recorder.Vector3)
         (mf mt mc : float),
    demo_recorder.latest_wrench (demo_recorder.self w) = Some latest ->
    demo_recorder.lookup_transform env "tool0"
      (demo_recorder.frame_id (demo_recorder.wheader latest)) = inr tf ->
    demo_recorder.transform_vector env tf
      (demo_recorder.force (demo_recorder.wrench latest)) = inr f ->
    demo_recorder.transform_vector env tf
      (demo_recorder.torque (demo_recorder.wrench latest)) = inr t ->
    norm.is_norm (demo_recorder.pow2 env) f mf ->
    norm.is_norm (demo_recorder.pow2 env) t mt ->
    let cf := norm.conditioned f mf 3 in
    let ct := norm.conditioned t mt 3 in
    norm.is_norm (demo_recorder.pow2 env) cf mc ->
    PrimFloat.ltb mc 3 = true ->
    let n := demo_recorder.num_dofs (demo_recorder.self w) in
    let w' := fst (demo_recorder.timer_callback env w) in
    demo_recorder.interaction (demo_recorder.self w') = false /\
    demo_recorder.can_move (demo_recorder.self w') = true /\
    demo_recorder.cmd (demo_recorder.self w') = np.zeros n n /\
    (forall i j, np.get (demo_recorder.cmd (demo_recorder.self w')) i j = 0%float).
Proof.
  intros env w latest tf f t mf mt mc Hlatest Hl Hf Ht Hnf Hnt cf ct Hnc
    Hm n w'.
  subst w'.
  rewrite (timer_callback_free env w latest Hlatest tf f t mf mt mc
             Hl Hf Ht Hnf Hnt Hnc Hm).
  cbn. repeat split. intros i j. apply get_zeros.
Qed.

Lemma timer_callback_free_motion_zeroes_command_witness :
  let w := sample.world (demo_recorder.mkVector3 2 0 0) false in
  let w' := fst (demo_recorder.timer_callback sample.env_ok w) in
  demo_recorder.cmd (demo_recorder.self w) =
    [[1; 0; 0]; [0; 2; 0]; [0; 0; 3]]%float /\
  demo_recorder.interaction (demo_recorder.self w') = false /\
  demo_recorder.can_move (demo_recorder.self w') = true /\
  demo_recorder.cmd (demo_recorder.self w') = np.zeros 3 3.
Proof.
  intros w w'.
  destruct (timer_callback_free_motion_zeroes_command sample.env_ok w
              (sample.wrench_of (demo_recorder.mkVector3 2 0 0))
              sample.identity_transform
              (demo_recorder.mkVector3 2 0 0) (demo_recorder.mkVector3 0 0 0)
              2%float 0%float 0%float
              eq_refl eq_refl eq_refl eq_refl
              sample_norm_2 sample_norm_zero sample_norm_zero eq_refl)
    as (H1 & H2 & H3 & _).
  split; [reflexivity|]. repeat split; assumption.
Defined.

(** ** The velocity emitter *)

Lemma item_in_shape (r c : nat) (A : np.ndarray) (i j : nat) :
  np.has_shape r c A = true -> (i < r)%nat -> (j < c)%nat ->
  np.item A i j = inr (np.get A i j).
Proof.
  unfold np.has_shape. intros H Hi Hj.
  apply andb_prop in H. destruct H as [Hl Hall].
  apply Nat.eqb_eq in Hl. rewrite forallb_forall in Hall.
  unfold np.item, np.get.
  assert (Hi' : (i < length A)%nat) by lia.
  rewrite (nth_error_nth' A [] Hi').
  assert (Hrow : length (nth i A []) = c).
  { apply Nat.eqb_eq, Hall, nth_In, Hi'. }
  assert (Hj' : (j < length (nth i A []))%nat) by lia.
  now rewrite (nth_error_nth' (nth i A []) 0%float Hj').
Qed.

Lemma diagonal_from_in_shape (m : nat) (c : np.ndarray) :
  np.has_shape m m c = true ->
  forall n a, (a + n <= m)%nat ->
    demo_recorder.diagonal_from c a n =
      inr (map (fun i => np.get c i i) (seq a n)).
Proof.
  intros Hs n. induction n as [|n IH]; intros a Ha.
  - reflexivity.
  - cbn [demo_recorder.diagonal_from seq map].
    rewrite (item_in_shape m m c a a Hs) by lia.
    rewrite IH by lia. reflexivity.
Qed.

(** C9, as stated, fails: with motion permitted and a position sample
    stored, a command that is a 3 x 1 column on three tracked joints makes
    the emitter raise IndexError at [cmd[1][1]] and nothing is sent. *)
Lemma emitter_always_publishes_fails : ~ stated.emitter_always_publishes.
Proof.
  intros H.
  destruct (H (demo_recorder.mkWorld
                 (demo_recorder.set_cmd (np.ones 3 1)
                    (sample.node (demo_recorder.mkVector3 0 0 0) true)) [])
              [0; 0; 0]%float eq_refl eq_refl) as [data Hd].
  vm_compute in Hd. discriminate Hd.
Qed.

(** C9, amended: [publish_trajectory] sends nothing while no position sample
    has been stored, sends nothing when motion is not permitted, whatever the
    command matrix holds, and, when the joint names are stored and the
    command matrix is square with at least one row per joint name, sends the
    diagonal entries of the command matrix, one per tracked joint; the
    command diag(1, 2, 3) on three joints gives [1; 2; 3]. *)
Theorem publish_trajectory_spec :
  forall (w : demo_recorder.World),
    let s := demo_recorder.self w in
    (demo_recorder.initial_joint_positions s = None ->
       demo_recorder.publish_trajectory w = (w, inr tt)) /\
    (demo_recorder.can_move s = false ->
       demo_recorder.publish_trajectory w = (w, inr tt)) /\
    (forall (p : list float) (names : list string) (m : nat),
       demo_recorder.initial_joint_positions s = Some p ->
       demo_recorder.can_move s = true ->
       demo_recorder.joint_names s = Some names ->
       np.has_shape m m (demo_recorder.cmd s) = true ->
       (length names <= m)%nat ->
       demo_recorder.publish_trajectory w =
         (demo_recorder.mkWorld s
            (demo_recorder.sent w ++
               [demo_recorder.Publish_vel
                  (map (fun i => np.get (demo_recorder.cmd s) i i)
                     (seq 0 (length names)))]),
          inr tt)) /\
    (demo_recorder.cmd s = [[1; 0; 0]; [0; 2; 0]; [0; 0; 3]]%float ->
     demo_recorder.can_move s = true ->
     demo_recorder.initial_joint_positions s <> None ->
     (exists n1 n2 n3, demo_recorder.joint_names s = Some [n1; n2; n3]) ->
     demo_recorder.sent (fst (demo_recorder.publish_trajectory w)) =
       demo_recorder.sent w ++ [demo_recorder.Publish_vel [1; 2; 3]%float]).
Proof.
  intros [s out]. cbn [demo_recorder.self]. repeat split.
  - intros H. unfold demo_recorder.publish_trajectory, bind, get_, ret.
    cbn. now rewrite H.
  - intros H. unfold demo_recorder.publish_trajectory, bind, get_, ret.
    cbn. rewrite H. now destruct (demo_recorder.initial_joint_positions s).
  - intros p names m Hp Hc Hn Hs Hm.
    unfold demo_recorder.publish_trajectory, bind, get_, ret, lift,
      demo_recorder.emit, modify, demo_recorder.len_joint_names.
    cbn. rewrite Hp, Hc, Hn. cbn.
    rewrite (diagonal_from_in_shape m _ Hs) by (cbn; lia).
    reflexivity.
  - intros Hcmd Hc Hp (n1 & n2 & n3 & Hn).
    unfold demo_recorder.publish_trajectory, bind, get_, ret, lift,
      demo_recorder.emit, modify, demo_recorder.len_joint_names.
    cbn. destruct (demo_recorder.initial_joint_positions s); [|congruence].
    rewrite Hc, Hn, Hcmd. reflexivity.
Qed.

Lemma publish_trajectory_spec_witness :
  let held := sample.world (demo_recorder.mkVector3 0 0 0) false in
  let free := sample.world (demo_recorder.mkVector3 0 0 0) true in
  let fresh := demo_recorder.mkWorld
                 (demo_recorder.set_initial_joint_positions None
                    (demo_recorder.self free)) [] in
  demo_recorder.publish_trajectory fresh = (fresh, inr tt) /\
  demo_recorder.publish_trajectory held = (held, inr tt) /\
  demo_recorder.sent (fst (demo_recorder.publish_trajectory free)) =
    [demo_recorder.Publish_vel [1; 2; 3]%float].
Proof.
  intros held free fresh. split; [|split].
  - exact (proj1 (publish_trajectory_spec fresh) eq_refl).
  - exact (proj1 (proj2 (publish_trajectory_spec held)) eq_refl).
  - destruct (publish_trajectory_spec free) as (_ & _ & H & _).
    rewrite (H [0; 0; 0]%float ["j1"; "j2"; "j3"]%string 3%nat
               eq_refl eq_refl eq_refl eq_refl (le_n 3)).
    reflexivity.
Defined.

(** ** The regular path on square gains *)

Lemma has_shape_smul (k : float) (r c : nat) (A : np.ndarray) :
  np.has_shape r c A = true -> np.has_shape r c (np.smul k A) = true.
Proof.
  intros H. rewrite (has_shape_eq_tabulate r c A H), smul_tabulate.
  apply has_shape_tabulate.
Qed.

Lemma get_smul (k : float) (r c : nat) (A : np.ndarray) (i j : nat) :
  np.has_shape r c A = true -> (i < r)%nat -> (j < c)%nat ->
  np.get (np.smul k A) i j = (k * np.get A i j)%float.
Proof.
  intros H Hi Hj. rewrite (has_shape_eq_tabulate r c A H) at 1.
  rewrite smul_tabulate. now rewrite get_tabulate.
Qed.

Section RegularStep.

Variables (s : pid.PID) (e : np.ndarray) (dt cur : float).

Let n := pid.num_dofs s.

Hypothesis Hn : (0 < n)%nat.
Hypothesis Hgains : shapes.gains_square s = true.
Hypothesis Hcols : shapes.columns s = true.
Hypothesis He : np.has_shape n 1 e = true.
Hypothesis Hdt : pid.degenerate dt = false.

Let next_i_error := shapes.next_i_error s e dt.
Let next_d_error := shapes.next_d_error s e dt.
Let next_cmd := shapes.next_cmd s e dt.

Lemma update_PID_square_gains :
  pid.update_PID e (Some dt) cur s =
    (pid.mkPID n (pid._p_gain s) (pid._i_gain s) (pid._d_gain s)
       (pid._i_min s) (pid._i_max s) e e next_d_error next_i_error next_cmd
       (pid._last_time s) (pid.i s), inr next_cmd).
Proof.
  unfold shapes.gains_square in Hgains. fold n in Hgains.
  apply andb_prop in Hgains. destruct Hgains as [HPI HD].
  apply andb_prop in HPI. destruct HPI as [HP HI].
  unfold shapes.columns in Hcols. fold n in Hcols.
  apply andb_prop in Hcols. destruct Hcols as [Hie Hel].
  pose (pt := np.tabulate n n (fun i j =>
                (np.get (pid._p_gain s) i j * np.get e i 0)%float)).
  pose (it := np.tabulate n n (fun i j =>
                (np.get (pid._i_gain s) i j * np.get next_i_error i 0)%float)).
  pose (df := np.tabulate n 1 (fun i j =>
                (np.get e i j - np.get (pid._p_error_last s) i j)%float)).
  pose (dm := np.tabulate n n (fun i j =>
                (np.get (pid._d_gain s) i j * np.get next_d_error i 0)%float)).
  pose (pi := np.tabulate n n (fun i j =>
                (np.get (pid._p_gain s) i j * np.get e i 0
                 + np.get (pid._i_gain s) i j * np.get next_i_error i 0)%float)).
  assert (Hsd : np.sdiv df dt = next_d_error) by apply sdiv_tabulate.
  rewrite <- Hsd.
  apply (update_PID_regular_run s e dt cur pt next_i_error it df dm pi next_cmd Hdt).
  - apply (broadcast_square_column PrimFloat.mul n _ _ Hn HP He).
  - rewrite (iadd_columns n _ _ Hn Hie (has_shape_smul dt n 1 e He)).
    unfold next_i_error, shapes.next_i_error. fold n.
    f_equal. apply tabulate_ext. intros i j Hi Hj.
    now rewrite (get_smul dt n 1 e i j He Hi Hj).
  - apply (broadcast_square_column PrimFloat.mul n _ _ Hn HI).
    apply has_shape_tabulate.
  - apply (broadcast_same PrimFloat.sub n 1 _ _ Hn He Hel).
  - rewrite Hsd.
    apply (broadcast_square_column PrimFloat.mul n _ _ Hn HD).
    apply has_shape_tabulate.
  - unfold np.add.
    rewrite (broadcast_same PrimFloat.add n n pt it Hn)
      by apply has_shape_tabulate.
    unfold pi. f_equal. apply tabulate_ext. intros i j Hi Hj.
    unfold pt, it. now rewrite !get_tabulate.
  - unfold np.add.
    rewrite (broadcast_same PrimFloat.add n n pi dm Hn)
      by apply has_shape_tabulate.
    unfold next_cmd, shapes.next_cmd. fold n next_i_error next_d_error.
    f_equal. apply tabulate_ext. intros i j Hi Hj.
    unfold pi, dm. rewrite !get_tabulate by assumption. rewrite <- Hsd.
    reflexivity.
Qed.

End RegularStep.

(** ** The command matrix *)

Lemma off_diagonal_zero_entry (n : nat) (G : np.ndarray) (i j : nat) :
  stated.off_diagonal_zero n G = true ->
  (i < n)%nat -> (j < n)%nat -> i <> j ->
  PrimFloat.eqb (np.get G i j) 0 = true.
Proof.
  unfold stated.off_diagonal_zero. intros H Hi Hj Hij.
  rewrite forallb_forall in H.
  assert (Hrow := H i (proj2 (in_seq n 0 i) (conj (Nat.le_0_l i) Hi))).
  rewrite forallb_forall in Hrow.
  assert (Hent := Hrow j (proj2 (in_seq n 0 j) (conj (Nat.le_0_l j) Hj))).
  apply orb_prop in Hent. destruct Hent as [Heq|Hz]; [|exact Hz].
  apply Nat.eqb_eq in Heq. contradiction.
Qed.

Lemma gains_diagonal_square (s : pid.PID) :
  shapes.gains_diagonal s = true -> shapes.gains_square s = true.
Proof.
  unfold shapes.gains_diagonal, shapes.gains_square, stated.is_diagonal.
  intros H.
  apply andb_prop in H. destruct H as [H HD].
  apply andb_prop in H. destruct H as [HP HI].
  apply andb_prop in HP. apply andb_prop in HI. apply andb_prop in HD.
  destruct HP as [-> _], HI as [-> _], HD as [-> _]. reflexivity.
Qed.

(** C1, as stated, fails: with gain matrices that are full of ones and a unit
    error, one call with [dt = 1] returns the matrix whose every entry is 3. *)
Lemma command_always_diagonal_fails : ~ stated.command_always_diagonal.
Proof.
  intros H.
  pose (s := pid.__init__ (np.ones 6 6) (np.ones 6 6) (np.ones 6 6) 0 0).
  pose (c := np.tabulate 6 6 (fun _ _ => 3%float)).
  destruct (H s (fst (pid.update_PID sample.unit_error (Some 1%float) 0 s))
              sample.unit_error c 1%float 0%float eq_refl eq_refl) as [Hd _].
  vm_compute in Hd. discriminate Hd.
Qed.

(** With the column gains that [load_params] builds, [np.ones((6, 1))], the
    command is a 6 x 1 column and not a square matrix. *)
Lemma update_PID_column_gains_give_column :
  let s := pid.__init__ (np.ones 6 1) (np.ones 6 1) (np.ones 6 1) 0 0 in
  snd (pid.update_PID sample.unit_error (Some 1%float) 0 s) =
    inr (np.tabulate 6 1 (fun _ _ => 3%float)).
Proof. reflexivity. Qed.

(** C1, amended: when the three gains are [num_dofs] x [num_dofs] matrices
    with zero off-diagonal entries and the errors are columns, a call with a
    non-degenerate [dt] returns, and stores in [cmd], a [num_dofs] x
    [num_dofs] matrix whose diagonal entry [i] is p_term + i_term + d_term of
    degree of freedom [i] and whose off-diagonal entries in row [i] are zero
    as long as the error, the integral error and the derivative error of
    that degree of freedom are finite. *)
Theorem update_PID_diagonal_gains_diagonal_command :
  forall (s : pid.PID) (e : np.ndarray) (dt cur : float),
    let n := pid.num_dofs s in
    (0 < n)%nat ->
    shapes.gains_diagonal s = true ->
    shapes.columns s = true ->
    np.has_shape n 1 e = true ->
    pid.degenerate dt = false ->
    exists (s' : pid.PID) (c : np.ndarray),
      pid.update_PID e (Some dt) cur s = (s', inr c) /\
      pid.cmd s' = c /\
      np.has_shape n n c = true /\
      (forall i, (i < n)%nat ->
         np.get c i i =
           (np.get (pid.p_gain s) i i * np.get e i 0
            + np.get (pid.i_gain s) i i * np.get (pid.i_error s') i 0
            + np.get (pid.d_gain s) i i * np.get (pid.d_error s') i 0)%float) /\
      (forall i j, (i < n)%nat -> (j < n)%nat -> i <> j ->
         is_finite (np.get e i 0) = true ->
         is_finite (np.get (pid.i_error s') i 0) = true ->
         is_finite (np.get (pid.d_error s') i 0) = true ->
         PrimFloat.eqb (np.get c i j) 0 = true).
Proof.
  intros s e dt cur n Hn Hdiag Hcols He Hdt.
  pose proof (gains_diagonal_square s Hdiag) as Hsq.
  eexists. eexists. split.
  - apply (update_PID_square_gains s e dt cur Hn Hsq Hcols He Hdt).
  - cbn [pid.cmd pid._cmd pid.i_error pid._i_error pid.d_error pid._d_error].
    split; [reflexivity|]. split; [apply has_shape_tabulate|]. split.
    + intros i Hi. unfold shapes.next_cmd. fold n.
      now rewrite get_tabulate.
    + intros i j Hi Hj Hij Fe Fi Fd.
      unfold shapes.gains_diagonal, stated.is_diagonal in Hdiag. fold n in Hdiag.
      apply andb_prop in Hdiag. destruct Hdiag as [H HD].
      apply andb_prop in H. destruct H as [HP HI].
      apply andb_prop in HP. apply andb_prop in HI. apply andb_prop in HD.
      destruct HP as [_ HP], HI as [_ HI], HD as [_ HD].
      unfold shapes.next_cmd. fold n. rewrite get_tabulate by assumption.
      apply add_zero_zero; [apply add_zero_zero|];
        apply mul_zero_finite; try assumption;
        apply (off_diagonal_zero_entry n); assumption.
Qed.

Lemma update_PID_diagonal_gains_diagonal_command_witness :
  exists (s' : pid.PID) (c : np.ndarray),
    pid.update_PID sample.unit_error (Some 0.1%float) 0 sample.controller
      = (s', inr c) /\
    pid.cmd s' = c /\
    np.get c 0 0 = 11.1%float /\
    PrimFloat.eqb (np.get c 0 1) 0 = true.
Proof.
  destruct (update_PID_diagonal_gains_diagonal_command
              sample.controller sample.unit_error 0.1%float 0%float
              (Nat.lt_0_succ 5) eq_refl eq_refl eq_refl eq_refl)
    as (s' & c & Hrun & Hcmd & _ & Hd & Ho).
  exists s', c. split; [exact Hrun|]. split; [exact Hcmd|].
  assert (Hs : s' = sample.after_regular).
  { unfold sample.after_regular. now rewrite Hrun. }
  split.
  - rewrite (Hd 0%nat (Nat.lt_0_succ 5)). rewrite Hs. reflexivity.
  - apply (Ho 0%nat 1%nat (Nat.lt_0_succ 5)).
    + apply -> Nat.succ_lt_mono. apply Nat.lt_0_succ.
    + discriminate.
    + reflexivity.
    + rewrite Hs. reflexivity.
    + rewrite Hs. reflexivity.
Defined.

(** ** Integral accumulation *)

(** What [pid_terms] has computed when it returns: the integral error was
    increased in place and the integral term is the gain times the new
    integral error. *)
Lemma pid_terms_inv (dt : float) (s1 s2 : pid.PID) (t : pid.terms) :
  pid.pid_terms dt s1 = (s2, inr t) ->
  np.iadd (pid._i_error s1) (np.smul dt (pid._p_error s1)) = inr (pid._i_error s2) /\
  np.mul (pid._i_gain s2) (pid._i_error s2) = inr (pid.i_term t) /\
  pid._i_gain s2 = pid._i_gain s1.
Proof.
  unfold pid.pid_terms, bind, ret, modify, get_, lift. cbn.
  destruct (np.mul (pid._p_gain s1) (pid._p_error s1)) as [x|pt];
    [discriminate|].
  destruct (np.iadd (pid._i_error s1) (np.smul dt (pid._p_error s1)))
    as [x|ie]; [discriminate|].
  cbn. destruct (np.mul (pid._i_gain s1) ie) as [x|it] eqn:H3; [discriminate|].
  destruct (np.sub (pid._p_error s1) (pid._p_error_last s1)) as [x|df];
    [discriminate|].
  cbn. destruct (np.mul (pid._d_gain s1) (np.sdiv df dt)) as [x|dm];
    [discriminate|].
  cbn. intros H. injection H as <- <-. cbn. auto.
Qed.

Lemma repeat_update_step (k : nat) (e : np.ndarray) (dt : float) (s0 s' : pid.PID) :
  pid.repeat_update (S k) e dt s0 = (s', inr tt) ->
  exists sk c,
    pid.repeat_update k e dt s0 = (sk, inr tt) /\
    pid.update_PID e (Some dt) 0 sk = (s', inr c).
Proof.
  cbn [pid.repeat_update]. unfold bind at 1.
  destruct (pid.repeat_update k e dt s0) as [sk [x|[]]]; [discriminate|].
  unfold bind at 1.
  destruct (pid.update_PID e (Some dt) 0 sk) as [s1 [x|c]] eqn:Hu;
    [discriminate|].
  unfold ret. intros H. injection H as <-.
  exists sk, c. split; [reflexivity|exact Hu].
Qed.

Section Accumulation.

Variables (s : pid.PID) (e : np.ndarray) (dt : float).

Let n := pid.num_dofs s.

Hypothesis Hn : (0 < n)%nat.
Hypothesis He : np.has_shape n 1 e = true.
Hypothesis Hdt : pid.degenerate dt = false.

(** The state after [k] returning calls from the reset controller. *)
Lemma repeat_update_inv (k : nat) :
  forall s', pid.repeat_update k e dt (pid.reset s) = (s', inr tt) ->
    pid.num_dofs s' = n /\
    pid._p_gain s' = pid._p_gain s /\
    pid._i_gain s' = pid._i_gain s /\
    pid._d_gain s' = pid._d_gain s /\
    np.has_shape n 1 (pid._p_error_last s') = true /\
    pid._i_error s' =
      np.tabulate n 1 (fun i j => shapes.accumulate k dt (np.get e i j)).
Proof.
  induction k as [|k IH]; intros s' Hrun.
  - cbn in Hrun. injection Hrun as <-. cbn. fold n.
    repeat split. apply has_shape_tabulate.
  - destruct (repeat_update_step k e dt _ s' Hrun) as (sk & c & Hk & Hc).
    destruct (IH sk Hk) as (Hnum & HP & HI & HD & _ & Hie).
    destruct (update_PID_regular_inv sk s' e c dt 0 Hdt Hc)
      as (pt & ie & it & df & dm & pi & _ & Hadd & _ & _ & _ & _ & _ & ->).
    cbn. repeat split; try assumption.
    rewrite Hie in Hadd.
    rewrite (iadd_columns n _ _ Hn (has_shape_tabulate n 1 _)
               (has_shape_smul dt n 1 e He)) in Hadd.
    injection Hadd as <-. apply tabulate_ext. intros i j Hi Hj.
    rewrite get_tabulate by assumption.
    now rewrite (get_smul dt n 1 e i j He Hi Hj).
Qed.

(** On square gains every one of the [k] calls returns. *)
Lemma repeat_update_runs (k : nat) :
  shapes.gains_square s = true ->
  exists s', pid.repeat_update k e dt (pid.reset s) = (s', inr tt).
Proof.
  intros Hsq. induction k as [|k [sk Hk]].
  - now exists (pid.reset s).
  - destruct (repeat_update_inv k sk Hk) as (Hnum & HP & HI & HD & Hel & Hie).
    assert (Hsqk : shapes.gains_square sk = true).
    { unfold shapes.gains_square. now rewrite Hnum, HP, HI, HD. }
    assert (Hck : shapes.columns sk = true).
    { unfold shapes.columns. rewrite Hnum, Hie. fold n.
      now rewrite has_shape_tabulate, Hel. }
    assert (Hek : np.has_shape (pid.num_dofs sk) 1 e = true) by now rewrite Hnum.
    assert (Hnk : (0 < pid.num_dofs sk)%nat) by now rewrite Hnum.
    eexists. cbn [pid.repeat_update]. unfold bind at 1. rewrite Hk.
    unfold bind at 1.
    rewrite (update_PID_square_gains sk e dt 0 Hnk Hsqk Hck Hek Hdt).
    reflexivity.
Qed.

End Accumulation.

(** C4, as stated, fails in binary64: ten calls with [dt = 0.1] on a unit
    error leave the integral error 0.9999999999999999, while
    [10 * 0.1 * 1.0] is 1.0. *)
Lemma integral_is_product_fails : ~ stated.integral_is_product.
Proof.
  intros H.
  pose (s' := fst (pid.repeat_update 10 sample.unit_error 0.1%float
                     (pid.reset sample.controller))).
  assert (Hrun : pid.repeat_update 10 sample.unit_error 0.1%float
                   (pid.reset sample.controller) = (s', inr tt))
    by (vm_compute; reflexivity).
  specialize (H sample.controller s' sample.unit_error 0.1%float 10%nat
                eq_refl eq_refl eq_refl Hrun 0%nat (Nat.lt_0_succ 5)).
  apply (f_equal (fun v => PrimFloat.eqb v 1)) in H.
  vm_compute in H. discriminate H.
Qed.

(** The integral limits are never read: a call on the controller with
    other limits does what it does on this one. *)
Lemma update_PID_other_limits (s : pid.PID) (e : np.ndarray)
  (dt : option float) (cur lo hi : float) :
  let relimit x :=
    pid.set_gains (pid.p_gain x) (pid.i_gain x) (pid.d_gain x) lo hi x in
  pid.update_PID e dt cur (relimit s) =
    (relimit (fst (pid.update_PID e dt cur s)),
     snd (pid.update_PID e dt cur s)).
Proof.
  intros relimit. subst relimit.
  destruct s as [n P I D lo0 hi0 pl pe de ie c lt k].
  unfold pid.update_PID, pid.derive_dt, pid.pid_terms, bind, ret, modify,
    get_, lift.
  destruct dt as [d|]; [|destruct lt as [t0|]]; cbn;
    match goal with |- context [pid.degenerate ?x] =>
      destruct (pid.degenerate x) end; cbn; try reflexivity;
    repeat match goal with
      | |- context [match ?x with inl _ => _ | inr _ => _ end] =>
          destruct x; cbn; try reflexivity
      end.
Qed.

Lemma repeat_update_other_limits (k : nat) (e : np.ndarray) (dt lo hi : float)
  (s : pid.PID) :
  let relimit x :=
    pid.set_gains (pid.p_gain x) (pid.i_gain x) (pid.d_gain x) lo hi x in
  pid.repeat_update k e dt (relimit s) =
    (relimit (fst (pid.repeat_update k e dt s)),
     snd (pid.repeat_update k e dt s)).
Proof.
  intros relimit. induction k as [|k IH]; [reflexivity|].
  cbn [pid.repeat_update]. unfold bind at 1 3 5. rewrite IH.
  destruct (pid.repeat_update k e dt s) as [sk [x|[]]]; cbn [fst snd];
    [reflexivity|].
  unfold bind.
  pose proof (update_PID_other_limits sk e (Some dt) 0 lo hi) as Hu.
  cbv zeta in Hu. fold relimit in Hu. rewrite Hu.
  destruct (pid.update_PID e (Some dt) 0 sk) as [s1 [x|c]]; reflexivity.
Qed.

(** C4, amended: from a reset controller, after [k] returning calls with the
    same error column [e] and the same non-degenerate [dt], the integral error
    of every degree of freedom is the binary64 value [accumulate k dt e]: zero
    to which the product [dt * e] has been added [k] times, one rounded
    addition per call. The integral term of the next call is
    [i_gain * i_error] on the integral error that call leaves. No clamping
    takes place: [i_min] and [i_max] are never read, the same calls on the
    controller with any other limits leave the same state but for the
    limits. On square gains all the calls return. *)
Theorem repeat_update_integral_unclamped :
  forall (s : pid.PID) (e : np.ndarray) (dt : float) (k : nat),
    let n := pid.num_dofs s in
    (0 < n)%nat ->
    np.has_shape n 1 e = true ->
    pid.degenerate dt = false ->
    (forall s', pid.repeat_update k e dt (pid.reset s) = (s', inr tt) ->
       np.has_shape n 1 (pid.i_error s') = true /\
       (forall i, (i < n)%nat ->
          np.get (pid.i_error s') i 0 =
            shapes.accumulate k dt (np.get e i 0)) /\
       (forall s'' t,
          pid.pid_terms dt (pid.set_p_error e s') = (s'', inr t) ->
          np.mul (pid.i_gain s) (pid.i_error s'') = inr (pid.i_term t) /\
          (forall i, (i < n)%nat ->
             np.get (pid.i_error s'') i 0 =
               shapes.accumulate (S k) dt (np.get e i 0)))) /\
    (forall (lo hi : float) s',
       pid.repeat_update k e dt (pid.reset s) = (s', inr tt) ->
       pid.repeat_update k e dt
         (pid.reset
            (pid.set_gains (pid.p_gain s) (pid.i_gain s) (pid.d_gain s)
               lo hi s)) =
         (pid.set_gains (pid.p_gain s') (pid.i_gain s') (pid.d_gain s')
            lo hi s', inr tt)) /\
    (shapes.gains_square s = true ->
       exists s', pid.repeat_update k e dt (pid.reset s) = (s', inr tt)).
Proof.
  intros s e dt k n Hn He Hdt. split; [|split].
  2:{ intros lo hi s' Hrun.
      pose proof (repeat_update_other_limits k e dt lo hi (pid.reset s)) as H.
      cbv zeta in H. rewrite Hrun in H. exact H. }
  - intros s' Hrun.
    destruct (repeat_update_inv s e dt Hn He Hdt k s' Hrun)
      as (Hnum & HP & HI & HD & Hel & Hie).
    unfold pid.i_error, pid.i_gain. rewrite Hie. fold n.
    split; [apply has_shape_tabulate|]. split.
    + intros i Hi. now rewrite get_tabulate by lia.
    + intros s'' t Hterms.
      destruct (pid_terms_inv dt _ s'' t Hterms) as (Hadd & Hmul & Hg).
      cbn in Hadd, Hg. rewrite Hie in Hadd. rewrite Hg, HI in Hmul.
      split; [exact Hmul|].
      rewrite (iadd_columns n _ _ Hn (has_shape_tabulate n 1 _)
                 (has_shape_smul dt n 1 e He)) in Hadd.
      injection Hadd as <-. intros i Hi.
      rewrite !get_tabulate by lia.
      now rewrite (get_smul dt n 1 e i 0 He Hi Nat.lt_0_1).
  - apply (repeat_update_runs s e dt Hn He Hdt k).
Qed.

Lemma repeat_update_integral_unclamped_witness :
  exists s',
    pid.repeat_update 10 sample.unit_error 0.1%float
      (pid.reset sample.controller) = (s', inr tt) /\
    pid.i_max s' = 0%float /\
    np.get (pid.i_error s') 0 0 = 0x1.fffffffffffffp-1%float.
Proof.
  destruct (repeat_update_integral_unclamped sample.controller
              sample.unit_error 0.1%float 10%nat
              (Nat.lt_0_succ 5) eq_refl eq_refl) as (Hval & _ & Hrun).
  destruct (Hrun eq_refl) as [s' Hs'].
  exists s'. split; [exact Hs'|].
  destruct (Hval s' Hs') as (_ & Hget & _).
  split.
  - assert (Hfst : s' = fst (pid.repeat_update 10 sample.unit_error 0.1%float
                               (pid.reset sample.controller)))
      by now rewrite Hs'.
    rewrite Hfst. vm_compute. reflexivity.
  - rewrite (Hget 0%nat (Nat.lt_0_succ 5)). vm_compute. reflexivity.
Defined.

(** ** When a position sample has been observed *)

(** A joint-state message stores the initial positions and the joint names,
    also when the callback raises further down. *)
Lemma joint_angles_callback_stores_sample
  (env : demo_recorder.Env) (msg : demo_recorder.JointState)
  (w : demo_recorder.World) :
  let s' := demo_recorder.self (fst (demo_recorder.joint_angles_callback env msg w)) in
  demo_recorder.initial_joint_positions s' <> None /\
  demo_recorder.joint_names s' <> None.
Proof.
  unfold demo_recorder.joint_angles_callback, bind, get_, ret, lift,
    demo_recorder.upd, modify.
  destruct w as [s out]. cbn.
  destruct (demo_recorder.joint_names s) eqn:Hn;
    destruct (demo_recorder.initial_joint_positions s) eqn:Hp; cbn;
    rewrite ?Hn, ?Hp;
    destruct (demo_recorder.reshape_col _ _); cbn; rewrite ?Hn, ?Hp;
    try (split; discriminate);
    destruct (demo_recorder.reshape_col _ _); cbn; rewrite ?Hn, ?Hp;
    try (split; discriminate);
    destruct (demo_recorder.get_command env _ _); cbn; rewrite ?Hn, ?Hp;
    try (split; discriminate);
    destruct (demo_recorder.path_start_T env);
    destruct (demo_recorder.path_end_T env); cbn; rewrite ?Hn, ?Hp;
    split; discriminate.
Qed.

(** The force-processing tick never stores or clears a position sample. *)
Lemma timer_callback_keeps_sample
  (env : demo_recorder.Env) (w : demo_recorder.World) :
  let s' := demo_recorder.self (fst (demo_recorder.timer_callback env w)) in
  demo_recorder.initial_joint_positions s' =
    demo_recorder.initial_joint_positions (demo_recorder.self w).
Proof.
  unfold demo_recorder.timer_callback, demo_recorder.timer_body, try_except,
    bind, get_, ret, lift, demo_recorder.upd, demo_recorder.emit, modify.
  destruct w as [s out]. cbn.
  destruct (demo_recorder.latest_wrench s) as [latest|]; [|reflexivity].
  destruct (demo_recorder.lookup_transform env _ _) as [e|tf]; cbn.
  { destruct (demo_recorder.tf_failure e); reflexivity. }
  destruct (demo_recorder.transform_vector env tf _) as [e|f]; cbn.
  { destruct (demo_recorder.tf_failure e); reflexivity. }
  destruct (demo_recorder.transform_vector env tf _) as [e|t]; cbn.
  { destruct (demo_recorder.tf_failure e); reflexivity. }
  destruct (demo_recorder.nullify_small_magnitudes _ f _) as [e|cf]; cbn.
  { destruct (demo_recorder.tf_failure e); reflexivity. }
  destruct (demo_recorder.nullify_small_magnitudes _ t _) as [e|ct]; cbn.
  { destruct (demo_recorder.tf_failure e); reflexivity. }
  destruct (demo_recorder.magnitude _ cf) as [e|m]; cbn.
  { destruct (demo_recorder.tf_failure e); reflexivity. }
  destruct (PrimFloat.ltb m 3); cbn; [reflexivity|].
  unfold demo_recorder.compliance_axis, demo_recorder.truediv. cbn.
  destruct (PrimFloat.eqb (demo_recorder.Kp s) 0); cbn; reflexivity.
Qed.

(** An instance in which the accumulated sum is the product: ten calls with
    [dt = 0.5] on a unit error give exactly 5. *)
Lemma accumulate_exact_example :
  shapes.accumulate 10 0.5 1 = stated.n_dt_e 10 0.5 1.
Proof. vm_compute. reflexivity. Qed.

(** * Further properties of the controller *)

(** ** Resetting and configuring *)

(** X1: [reset] forgets the history: it is idempotent, and on square gains
    the first regular call after it returns, whatever state came before the
    reset; that call leaves the integral error [0 + dt * e] and the
    derivative error [(e - 0) / dt] for every degree of freedom. *)
Theorem reset_then_regular_call :
  forall (s : pid.PID) (e : np.ndarray) (dt cur : float),
    let n := pid.num_dofs s in
    (0 < n)%nat ->
    shapes.gains_square s = true ->
    np.has_shape n 1 e = true ->
    pid.degenerate dt = false ->
    pid.reset (pid.reset s) = pid.reset s /\
    exists (s' : pid.PID) (c : np.ndarray),
      pid.update_PID e (Some dt) cur (pid.reset s) = (s', inr c) /\
      np.has_shape n n c = true /\
      pid.p_error s' = e /\
      (forall i, (i < n)%nat ->
         np.get (pid.i_error s') i 0 = (0 + dt * np.get e i 0)%float /\
         np.get (pid.d_error s') i 0 = ((np.get e i 0 - 0) / dt)%float).
Proof.
  intros s e dt cur n Hn Hsq He Hdt. split; [reflexivity|].
  assert (Hcols : shapes.columns (pid.reset s) = true).
  { unfold shapes.columns, pid.reset. cbn.
    unfold np.zeros. now rewrite !has_shape_tabulate. }
  eexists. eexists. split.
  - apply (update_PID_square_gains (pid.reset s) e dt cur Hn Hsq Hcols He Hdt).
  - cbn [pid.p_error pid._p_error pid.i_error pid._i_error pid.d_error
         pid._d_error].
    split; [apply has_shape_tabulate|]. split; [reflexivity|].
    intros i Hi. unfold shapes.next_i_error, shapes.next_d_error.
    cbn [pid.reset pid.num_dofs pid._i_error pid._p_error_last]. fold n.
    rewrite !get_tabulate by (try assumption; apply Nat.lt_0_1).
    now rewrite get_zeros.
Qed.

Lemma reset_then_regular_call_witness :
  exists (s' : pid.PID) (c : np.ndarray),
    pid.update_PID sample.unit_error (Some 0.5%float) 0
      (pid.reset sample.after_regular) = (s', inr c) /\
    np.get (pid.i_error s') 0 0 = 0.5%float /\
    np.get (pid.d_error s') 0 0 = 2%float.
Proof.
  destruct (reset_then_regular_call sample.after_regular sample.unit_error
              0.5%float 0%float (Nat.lt_0_succ 5) eq_refl eq_refl eq_refl)
    as (_ & s' & c & Hrun & _ & _ & Hval).
  exists s', c. split; [exact Hrun|].
  destruct (Hval 0%nat (Nat.lt_0_succ 5)) as [Hi Hd].
  rewrite Hi, Hd. split; reflexivity.
Defined.

(** ** The clock-derived time step *)

Lemma sub_self_degenerate (t : float) : pid.degenerate (t - t) = true.
Proof.
  unfold pid.degenerate, is_nan, is_infinity.
  rewrite !FloatAxioms.eqb_spec, abs_spec, sub_spec.
  change (Prim2SF 0) with (S754_zero false).
  change (Prim2SF infinity) with (S754_infinity false).
  destruct (Prim2SF t) as [[|]|[|]| |sg m ex]; try reflexivity.
  unfold SF64sub, SFsub.
  assert (H : forall z : Z, Z.sub z z = 0%Z) by apply Z.sub_diag.
  cbv zeta. rewrite H. reflexivity.
Qed.

(** X2: the first call that leaves [dt] to the clock never produces a
    command: whatever the clock reads (also infinity or not-a-number), it
    returns the zero matrix, records the reading in [last_time], stores the
    error in [p_error] and touches nothing else. *)
Theorem update_PID_first_clock_call :
  forall (s : pid.PID) (e : np.ndarray) (cur : float),
    pid.last_time s = None ->
    pid.update_PID e None cur s =
      (pid.set_p_error e (pid.set_last_time (Some cur) s),
       inr (np.zeros (pid.num_dofs s) (pid.num_dofs s))).
Proof.
  intros s e cur Hl. unfold pid.last_time in Hl.
  unfold pid.update_PID, pid.derive_dt, bind, ret, modify, get_.
  rewrite Hl. cbn. now rewrite sub_self_degenerate.
Qed.

Lemma update_PID_first_clock_call_witness :
  let r := pid.update_PID sample.unit_error None infinity sample.controller in
  snd r = inr (np.zeros 6 6) /\ pid.last_time (fst r) = Some infinity.
Proof.
  intros r. subst r.
  rewrite (update_PID_first_clock_call sample.controller sample.unit_error
             infinity eq_refl).
  split; reflexivity.
Defined.

(** X3: a later call that leaves [dt] to the clock is the call with the
    explicit step [cur - last_time], made after [last_time] has been moved to
    the clock reading. *)
Theorem update_PID_clock_is_explicit_difference :
  forall (s : pid.PID) (e : np.ndarray) (cur cur' t0 : float),
    pid.last_time s = Some t0 ->
    pid.update_PID e None cur s =
      pid.update_PID e (Some (cur - t0)%float) cur'
        (pid.set_last_time (Some cur) s).
Proof.
  intros s e cur cur' t0 Hl. unfold pid.last_time in Hl.
  unfold pid.update_PID, pid.derive_dt, bind, ret, modify, get_.
  rewrite Hl. reflexivity.
Qed.

Lemma update_PID_clock_is_explicit_difference_witness :
  let s := pid.set_last_time (Some 1%float) sample.controller in
  snd (pid.update_PID sample.unit_error None 2 s) =
    inr (np.tabulate 6 6 (fun i j => if (i =? j)%nat then 3%float else 0%float)).
Proof.
  intros s. subst s.
  rewrite (update_PID_clock_is_explicit_difference
             (pid.set_last_time (Some 1%float) sample.controller)
             sample.unit_error 2 0 1 eq_refl).
  reflexivity.
Defined.

(** ** What a call never changes *)

(** X4: whether it returns or raises, [update_PID] leaves the gains, the
    integral limits and [num_dofs] alone, and with an explicit [dt] also
    [last_time]. *)
Theorem update_PID_keeps_configuration :
  forall (s : pid.PID) (e : np.ndarray) (dt : option float) (cur : float),
    let s' := fst (pid.update_PID e dt cur s) in
    pid.num_dofs s' = pid.num_dofs s /\
    pid.p_gain s' = pid.p_gain s /\
    pid.i_gain s' = pid.i_gain s /\
    pid.d_gain s' = pid.d_gain s /\
    pid.i_min s' = pid.i_min s /\
    pid.i_max s' = pid.i_max s /\
    (dt <> None -> pid.last_time s' = pid.last_time s).
Proof.
  intros s e dt cur.
  unfold pid.update_PID, pid.derive_dt, pid.pid_terms, bind, ret, modify,
    get_, lift.
  destruct dt as [d|]; [|destruct (pid._last_time s) as [t0|]]; cbn;
    match goal with |- context [pid.degenerate ?x] =>
      destruct (pid.degenerate x) end; cbn;
    repeat match goal with
      | |- context [match ?x with inl _ => _ | inr _ => _ end] =>
          destruct x; cbn
      end;
    repeat split; intros; congruence.
Qed.

Lemma update_PID_keeps_configuration_witness :
  pid.last_time
    (fst (pid.update_PID (np.ones 2 2) (Some 1%float) 0 sample.controller))
  = pid.last_time sample.controller.
Proof.
  apply (update_PID_keeps_configuration sample.controller (np.ones 2 2)
           (Some 1%float) 0).
  discriminate.
Defined.

(** ** A zero error *)

Lemma nondegenerate_spec (dt : float) :
  pid.degenerate dt = false ->
  exists sg m ex, Prim2SF dt = S754_finite sg m ex.
Proof.
  unfold pid.degenerate, is_nan, is_infinity.
  rewrite !FloatAxioms.eqb_spec, abs_spec.
  change (Prim2SF 0) with (S754_zero false).
  change (Prim2SF infinity) with (S754_infinity false).
  destruct (Prim2SF dt) as [sg|[|]| |sg m ex]; cbn; try discriminate.
  intros _. now exists sg, m, ex.
Qed.

Lemma mul_finite_zero (v z : float) :
  is_finite v = true -> PrimFloat.eqb z 0 = true ->
  PrimFloat.eqb (v * z) 0 = true.
Proof.
  intros Hv Hz.
  destruct (is_zero_spec z Hz) as [sz Hsz].
  rewrite FloatAxioms.eqb_spec, mul_spec, Hsz.
  change (Prim2SF 0) with (S754_zero false).
  destruct (is_finite_spec v Hv) as [[sv ->]|(sv & m & ex & ->)]; reflexivity.
Qed.

Lemma sub_zero_zero (a b : float) :
  PrimFloat.eqb a 0 = true -> PrimFloat.eqb b 0 = true ->
  PrimFloat.eqb (a - b) 0 = true.
Proof.
  intros Ha Hb.
  destruct (is_zero_spec a Ha) as [sa Hsa].
  destruct (is_zero_spec b Hb) as [sb Hsb].
  rewrite FloatAxioms.eqb_spec, sub_spec, Hsa, Hsb.
  change (Prim2SF 0) with (S754_zero false).
  destruct sa, sb; reflexivity.
Qed.

Lemma div_zero_nondegenerate (z dt : float) :
  PrimFloat.eqb z 0 = true -> pid.degenerate dt = false ->
  PrimFloat.eqb (z / dt) 0 = true.
Proof.
  intros Hz Hdt.
  destruct (is_zero_spec z Hz) as [sz Hsz].
  destruct (nondegenerate_spec dt Hdt) as (sg & m & ex & Hd).
  rewrite FloatAxioms.eqb_spec, div_spec, Hsz, Hd. reflexivity.
Qed.

Lemma nondegenerate_finite (dt : float) :
  pid.degenerate dt = false -> is_finite dt = true.
Proof.
  unfold pid.degenerate, is_finite. intros H.
  apply orb_false_elim in H. destruct H as [H Hinf].
  apply orb_false_elim in H. destruct H as [_ Hnan].
  now rewrite Hnan, Hinf.
Qed.

Lemma all_finite_entry (r c : nat) (A : np.ndarray) (i j : nat) :
  more.all_finite A = true -> np.has_shape r c A = true ->
  (i < r)%nat -> (j < c)%nat -> is_finite (np.get A i j) = true.
Proof.
  unfold more.all_finite, np.has_shape. intros Hf Hs Hi Hj.
  apply andb_prop in Hs. destruct Hs as [Hl Hall].
  apply Nat.eqb_eq in Hl. rewrite forallb_forall in Hall, Hf.
  assert (Hi' : (i < length A)%nat) by lia.
  assert (Hin : In (nth i A []) A) by now apply nth_In.
  assert (Hrow : length (nth i A []) = c) by now apply Nat.eqb_eq, Hall.
  specialize (Hf _ Hin). rewrite forallb_forall in Hf.
  apply Hf. unfold np.get. apply nth_In. lia.
Qed.

Lemma all_zero_intro (r c : nat) (A : np.ndarray) :
  (forall i j, (i < r)%nat -> (j < c)%nat ->
     PrimFloat.eqb (np.get A i j) 0 = true) ->
  more.all_zero r c A = true.
Proof.
  intros H. unfold more.all_zero.
  apply forallb_forall. intros i Hi. apply in_seq in Hi.
  apply forallb_forall. intros j Hj. apply in_seq in Hj.
  apply H; lia.
Qed.

(** X5: from a reset controller with square gains whose entries are all
    finite, a zero error and any non-degenerate [dt] give a command that is
    zero in every entry, and the integral and derivative errors stay zero. *)
Theorem update_PID_zero_error_zero_command :
  forall (s : pid.PID) (dt cur : float),
    let n := pid.num_dofs s in
    (0 < n)%nat ->
    shapes.gains_square s = true ->
    more.all_finite (pid.p_gain s) = true ->
    more.all_finite (pid.i_gain s) = true ->
    more.all_finite (pid.d_gain s) = true ->
    pid.degenerate dt = false ->
    exists (s' : pid.PID) (c : np.ndarray),
      pid.update_PID (np.zeros n 1) (Some dt) cur (pid.reset s) = (s', inr c) /\
      more.all_zero n n c = true /\
      more.all_zero n 1 (pid.i_error s') = true /\
      more.all_zero n 1 (pid.d_error s') = true.
Proof.
  intros s dt cur n Hn Hsq HfP HfI HfD Hdt.
  assert (Hcols : shapes.columns (pid.reset s) = true).
  { unfold shapes.columns, pid.reset. cbn.
    unfold np.zeros. now rewrite !has_shape_tabulate. }
  assert (He : np.has_shape n 1 (np.zeros n 1) = true)
    by apply has_shape_tabulate.
  pose proof Hsq as Hsq'. unfold shapes.gains_square in Hsq'. fold n in Hsq'.
  apply andb_prop in Hsq'. destruct Hsq' as [HPI HD].
  apply andb_prop in HPI. destruct HPI as [HP HI].
  assert (Hie : forall i, (i < n)%nat ->
            PrimFloat.eqb
              (np.get (shapes.next_i_error (pid.reset s) (np.zeros n 1) dt) i 0)
              0 = true).
  { intros i Hi. unfold shapes.next_i_error.
    cbn [pid.reset pid.num_dofs pid._i_error]. fold n.
    rewrite get_tabulate by (try assumption; apply Nat.lt_0_1).
    rewrite !get_zeros. apply add_zero_zero; [reflexivity|].
    apply mul_finite_zero; [now apply nondegenerate_finite|reflexivity]. }
  assert (Hde : forall i, (i < n)%nat ->
            PrimFloat.eqb
              (np.get (shapes.next_d_error (pid.reset s) (np.zeros n 1) dt) i 0)
              0 = true).
  { intros i Hi. unfold shapes.next_d_error.
    cbn [pid.reset pid.num_dofs pid._p_error_last]. fold n.
    rewrite get_tabulate by (try assumption; apply Nat.lt_0_1).
    rewrite !get_zeros. apply div_zero_nondegenerate; [reflexivity|exact Hdt]. }
  eexists. eexists. split.
  - apply (update_PID_square_gains (pid.reset s) (np.zeros n 1) dt cur
             Hn Hsq Hcols He Hdt).
  - cbn [pid.i_error pid._i_error pid.d_error pid._d_error].
    split; [|split].
    + apply all_zero_intro. intros i j Hi Hj. unfold shapes.next_cmd.
      cbn [pid.reset pid.num_dofs pid._p_gain pid._i_gain pid._d_gain]. fold n.
      rewrite get_tabulate by assumption. rewrite get_zeros.
      apply add_zero_zero; [apply add_zero_zero|]; apply mul_finite_zero;
        try reflexivity; auto;
        eapply all_finite_entry; eauto.
    + apply all_zero_intro. intros i j Hi Hj.
      assert (j = 0)%nat by lia. subst j. now apply Hie.
    + apply all_zero_intro. intros i j Hi Hj.
      assert (j = 0)%nat by lia. subst j. now apply Hde.
Qed.

Lemma update_PID_zero_error_zero_command_witness :
  exists (s' : pid.PID) (c : np.ndarray),
    pid.update_PID (np.zeros 6 1) (Some 0.1%float) 0
      (pid.reset sample.controller) = (s', inr c) /\
    more.all_zero 6 6 c = true.
Proof.
  destruct (update_PID_zero_error_zero_command sample.controller 0.1%float
              0%float (Nat.lt_0_succ 5) eq_refl eq_refl eq_refl eq_refl eq_refl)
    as (s' & c & Hrun & Hz & _).
  exists s', c. split; assumption.
Defined.

(** ** Errors of the wrong shape *)

Lemma bdim_mismatch (a b : nat) :
  a <> b -> a <> 1%nat -> b <> 1%nat -> np.bdim a b = None.
Proof.
  intros Hab Ha Hb. unfold np.bdim.
  destruct (a =? b)%nat eqn:E1; [apply Nat.eqb_eq in E1; contradiction|].
  destruct (a =? 1)%nat eqn:E2; [apply Nat.eqb_eq in E2; contradiction|].
  destruct (b =? 1)%nat eqn:E3; [apply Nat.eqb_eq in E3; contradiction|].
  reflexivity.
Qed.

(** X6: an error column with the wrong number of rows makes the call raise
    ValueError at the proportional term; by then [p_error] holds the rejected
    error, and the integral error, the derivative error, the previous error
    and the command are untouched. *)
Theorem update_PID_wrong_rows_raises :
  forall (s : pid.PID) (e : np.ndarray) (dt cur : float) (m : nat),
    let n := pid.num_dofs s in
    (1 < n)%nat -> (1 < m)%nat -> m <> n ->
    np.has_shape n n (pid.p_gain s) = true ->
    np.has_shape m 1 e = true ->
    pid.degenerate dt = false ->
    pid.update_PID e (Some dt) cur s = (pid.set_p_error e s, inl ValueError).
Proof.
  intros s e dt cur m n Hn Hm Hmn HP He Hdt.
  destruct (has_shape_dims n n _ HP ltac:(lia)) as [HrP HcP].
  destruct (has_shape_dims m 1 _ He ltac:(lia)) as [Hre Hce].
  unfold pid.update_PID, pid.derive_dt, pid.pid_terms, bind, ret, modify,
    get_, lift.
  rewrite Hdt. cbn.
  unfold np.mul, np.broadcast. unfold pid.p_gain in HrP, HcP.
  rewrite HrP, Hre, (bdim_mismatch n m) by lia. reflexivity.
Qed.

Lemma update_PID_wrong_rows_raises_witness :
  let r := pid.update_PID (np.ones 3 1) (Some 0.1%float) 0 sample.after_regular in
  snd r = inl ValueError /\
  pid.p_error (fst r) = np.ones 3 1 /\
  pid.cmd (fst r) = sample.first_command.
Proof.
  intros r. subst r.
  rewrite (update_PID_wrong_rows_raises sample.after_regular (np.ones 3 1)
             0.1%float 0%float 3%nat);
    try reflexivity; try discriminate.
  - repeat split.
  - apply -> Nat.succ_lt_mono. apply Nat.lt_0_succ.
  - apply -> Nat.succ_lt_mono. apply Nat.lt_0_succ.
Defined.

(** X7: an error given as a row of [num_dofs] entries (a one-dimensional
    array) passes the proportional term and makes the in-place integral
    update raise ValueError, because the sum would have to be a square
    matrix; again only [p_error] has changed. *)
Theorem update_PID_row_error_raises :
  forall (s : pid.PID) (e : np.ndarray) (dt cur : float),
    let n := pid.num_dofs s in
    (1 < n)%nat ->
    np.has_shape n n (pid.p_gain s) = true ->
    np.has_shape n 1 (pid.i_error s) = true ->
    np.has_shape 1 n e = true ->
    pid.degenerate dt = false ->
    pid.update_PID e (Some dt) cur s = (pid.set_p_error e s, inl ValueError).
Proof.
  intros s e dt cur n Hn HP Hie He Hdt.
  destruct (has_shape_dims n n _ HP ltac:(lia)) as [HrP HcP].
  destruct (has_shape_dims n 1 _ Hie ltac:(lia)) as [Hri Hci].
  destruct (has_shape_dims 1 n _ He Nat.lt_0_1) as [Hre Hce].
  pose proof (has_shape_smul dt 1 n e He) as Hse.
  destruct (has_shape_dims 1 n _ Hse Nat.lt_0_1) as [Hrs Hcs].
  unfold pid.p_gain in HrP, HcP. unfold pid.i_error in Hri, Hci.
  assert (Hb1 : np.bdim n 1 = Some n) by apply bdim_one_r.
  assert (Hb2 : np.bdim 1 n = Some n).
  { unfold np.bdim. destruct (1 =? n)%nat eqn:E; [apply Nat.eqb_eq in E; lia|].
    reflexivity. }
  unfold pid.update_PID, pid.derive_dt, pid.pid_terms, bind, ret, modify,
    get_, lift.
  rewrite Hdt. cbn.
  unfold np.mul, np.broadcast at 1.
  rewrite HrP, HcP, Hre, Hce, Hb1, bdim_same. cbn.
  unfold np.iadd, np.add, np.broadcast.
  rewrite Hri, Hci, Hrs, Hcs, Hb1, Hb2. cbn.
  rewrite nrows_tabulate, ncols_tabulate by lia.
  rewrite Nat.eqb_refl. cbn.
  destruct (n =? 1)%nat eqn:E; [apply Nat.eqb_eq in E; lia|]. reflexivity.
Qed.

Lemma update_PID_row_error_raises_witness :
  let r := pid.update_PID (np.ones 1 6) (Some 0.1%float) 0 sample.controller in
  snd r = inl ValueError /\ pid.i_error (fst r) = np.zeros 6 1.
Proof.
  intros r. subst r.
  rewrite (update_PID_row_error_raises sample.controller (np.ones 1 6)
             0.1%float 0%float); try reflexivity.
  - split; reflexivity.
  - apply -> Nat.succ_lt_mono. apply Nat.lt_0_succ.
Defined.

(** * Further properties of the node *)

(** ** Conditioning *)

(** X8: conditioning is idempotent: a vector that has been through
    [nullify_small_magnitudes] comes out of a second pass unchanged, for
    every threshold, also a not-a-number one, whatever the squares of the
    runtime are, as long as [0.0 ** 2] is [0.0]. *)
Theorem nullify_small_magnitudes_idempotent :
  forall (pow2 : float -> res float) (v r : demo_recorder.Vector3)
         (threshold : float),
    pow2 0%float = inr 0%float ->
    demo_recorder.nullify_small_magnitudes pow2 v threshold = inr r ->
    demo_recorder.nullify_small_magnitudes pow2 r threshold = inr r.
Proof.
  intros pow2 v r threshold H0 H.
  unfold demo_recorder.nullify_small_magnitudes in H.
  destruct (demo_recorder.magnitude pow2 v) as [e|m] eqn:Hm;
    [discriminate H|].
  destruct (PrimFloat.ltb m threshold || is_nan m) eqn:E;
    unfold ok in H; injection H as <-.
  - unfold demo_recorder.nullify_small_magnitudes.
    rewrite (magnitude_of_norm pow2 (demo_recorder.mkVector3 0 0 0) 0).
    + match goal with |- (if ?c then _ else _) = _ => now destruct c end.
    + exists 0%float, 0%float, 0%float. cbn. repeat split; assumption.
  - unfold demo_recorder.nullify_small_magnitudes. now rewrite Hm, E.
Qed.

Lemma nullify_small_magnitudes_idempotent_witness :
  demo_recorder.nullify_small_magnitudes sample.pow2
    (demo_recorder.mkVector3 0 0 0) 3 = inr (demo_recorder.mkVector3 0 0 0) /\
  demo_recorder.nullify_small_magnitudes sample.pow2
    (demo_recorder.mkVector3 5 0 0) 3 = inr (demo_recorder.mkVector3 5 0 0).
Proof.
  split.
  - apply (nullify_small_magnitudes_idempotent sample.pow2
             (demo_recorder.mkVector3 2 0 0) (demo_recorder.mkVector3 0 0 0)
             3%float eq_refl).
    vm_compute. reflexivity.
  - apply (nullify_small_magnitudes_idempotent sample.pow2
             (demo_recorder.mkVector3 5 0 0) (demo_recorder.mkVector3 5 0 0)
             3%float eq_refl).
    vm_compute. reflexivity.
Defined.

(** A force that is not below the threshold is its own conditioned force. *)
Lemma conditioned_norm_above (pow2 : float -> res float)
  (f : demo_recorder.Vector3) (mf : float) :
  norm.is_norm pow2 f mf ->
  norm.below mf 3 = false ->
  norm.conditioned f mf 3 = f /\
  norm.is_norm pow2 (norm.conditioned f mf 3) mf /\
  PrimFloat.ltb mf 3 = false.
Proof.
  intros Hn Hb. unfold norm.conditioned. rewrite Hb.
  split; [reflexivity|]. split; [exact Hn|].
  unfold norm.below in Hb. now apply orb_false_elim in Hb.
Qed.

Lemma sample_norm_nan :
  norm.is_norm sample.pow2 (demo_recorder.mkVector3 nan 9 0) nan.
Proof. exists nan, 81%float, 0%float. repeat split. Qed.

(** ** The mode of a tick *)

(** X9: once the lookup and the two rotations have succeeded and the two
    conditionings have returned, the mode is a function of the magnitude of
    the rotated force alone, the root of the sum of the squares that the
    runtime answers: motion is permitted exactly when it is below 3.0 or
    not-a-number, [interaction] is the negation of [can_move], the command
    matrix is zero and [curr_force] is the conditioned force; this holds
    whether the tick then returns or raises, and whatever the torque and the
    stiffness are. *)
Theorem timer_callback_mode_from_force :
  forall (env : demo_recorder.Env) (w : demo_recorder.World)
         (latest : demo_recorder.WrenchStamped)
         (tf : demo_recorder.TransformStamped) (f t : demo_recorder.Vector3)
         (mf mt : float),
    demo_recorder.latest_wrench (demo_recorder.self w) = Some latest ->
    demo_recorder.lookup_transform env "tool0"
      (demo_recorder.frame_id (demo_recorder.wheader latest)) = inr tf ->
    demo_recorder.transform_vector env tf
      (demo_recorder.force (demo_recorder.wrench latest)) = inr f ->
    demo_recorder.transform_vector env tf
      (demo_recorder.torque (demo_recorder.wrench latest)) = inr t ->
    demo_recorder.pow2 env 0%float = inr 0%float ->
    norm.is_norm (demo_recorder.pow2 env) f mf ->
    norm.is_norm (demo_recorder.pow2 env) t mt ->
    let n := demo_recorder.num_dofs (demo_recorder.self w) in
    let s' := demo_recorder.self (fst (demo_recorder.timer_callback env w)) in
    demo_recorder.can_move s' = (PrimFloat.ltb mf 3 || is_nan mf) /\
    demo_recorder.interaction s' = negb (demo_recorder.can_move s') /\
    demo_recorder.cmd s' = np.zeros n n /\
    demo_recorder.curr_force s' =
      Some (if PrimFloat.ltb mf 3 || is_nan mf
            then demo_recorder.mkVector3 0 0 0 else f).
Proof.
  intros env w latest tf f t mf mt Hlatest Hl Hf Ht H0 Hnf Hnt n s'. subst s'.
  destruct (conditioned_norm (demo_recorder.pow2 env) f mf H0 Hnf)
    as (mc & Hnc & Hm).
  assert (Hcf : norm.conditioned f mf 3 =
                if PrimFloat.ltb mf 3 || is_nan mf
                then demo_recorder.mkVector3 0 0 0 else f) by reflexivity.
  unfold norm.below in Hm.
  destruct (PrimFloat.ltb mf 3 || is_nan mf) eqn:Hb.
  - rewrite (timer_callback_free env w latest Hlatest tf f t mf mt mc
               Hl Hf Ht Hnf Hnt Hnc Hm).
    cbn. rewrite Hcf. repeat split.
  - destruct (PrimFloat.eqb (demo_recorder.Kp (demo_recorder.self w)) 0) eqn:Hk.
    + rewrite (timer_callback_zero_stiffness env w latest Hlatest tf f t
                 mf mt mc Hl Hf Ht Hnf Hnt Hnc Hm Hk).
      cbn. rewrite Hcf. repeat split.
    + rewrite (timer_callback_interaction env w latest Hlatest tf f t
                 mf mt mc Hl Hf Ht Hnf Hnt Hnc Hm Hk).
      cbn. rewrite Hcf. repeat split.
Qed.

Lemma timer_callback_mode_from_force_witness :
  let f := demo_recorder.mkVector3 nan 9 0 in
  let s' := demo_recorder.self
              (fst (demo_recorder.timer_callback sample.env_ok
                      (sample.world f false))) in
  demo_recorder.can_move s' = true /\
  demo_recorder.interaction s' = false /\
  demo_recorder.curr_force s' = Some (demo_recorder.mkVector3 0 0 0).
Proof.
  intros f s'.
  destruct (timer_callback_mode_from_force sample.env_ok
              (sample.world f false) (sample.wrench_of f)
              sample.identity_transform f (demo_recorder.mkVector3 0 0 0)
              nan 0%float
              eq_refl eq_refl eq_refl eq_refl eq_refl
              sample_norm_nan sample_norm_zero) as (H1 & H2 & _ & H4).
  fold s' in H1, H2, H4. rewrite H2, H1.
  split; [reflexivity|]. split; [reflexivity|]. exact H4.
Defined.

(** X10: with a stiffness [Kp] of zero, a tick whose force magnitude, the
    root of the sum of the squares that the runtime answers, is neither
    below 3.0 nor not-a-number raises ZeroDivisionError; it has already
    forbidden motion and zeroed the command, it keeps the previous twist and
    sends nothing. *)
Theorem timer_callback_zero_stiffness_raises :
  forall (env : demo_recorder.Env) (w : demo_recorder.World)
         (latest : demo_recorder.WrenchStamped)
         (tf : demo_recorder.TransformStamped) (f t : demo_recorder.Vector3)
         (mf mt : float),
    demo_recorder.latest_wrench (demo_recorder.self w) = Some latest ->
    demo_recorder.lookup_transform env "tool0"
      (demo_recorder.frame_id (demo_recorder.wheader latest)) = inr tf ->
    demo_recorder.transform_vector env tf
      (demo_recorder.force (demo_recorder.wrench latest)) = inr f ->
    demo_recorder.transform_vector env tf
      (demo_recorder.torque (demo_recorder.wrench latest)) = inr t ->
    norm.is_norm (demo_recorder.pow2 env) f mf ->
    norm.is_norm (demo_recorder.pow2 env) t mt ->
    PrimFloat.ltb mf 3 || is_nan mf = false ->
    PrimFloat.eqb (demo_recorder.Kp (demo_recorder.self w)) 0 = true ->
    let r := demo_recorder.timer_callback env w in
    let s' := demo_recorder.self (fst r) in
    snd r = inl ZeroDivisionError /\
    demo_recorder.can_move s' = false /\
    demo_recorder.interaction s' = true /\
    demo_recorder.cmd s' =
      np.zeros (demo_recorder.num_dofs (demo_recorder.self w))
        (demo_recorder.num_dofs (demo_recorder.self w)) /\
    demo_recorder.current_twist s' =
      demo_recorder.current_twist (demo_recorder.self w) /\
    demo_recorder.sent (fst r) = demo_recorder.sent w.
Proof.
  intros env w latest tf f t mf mt Hlatest Hl Hf Ht Hnf Hnt Hb Hk r s'.
  subst r s'.
  destruct (conditioned_norm_above (demo_recorder.pow2 env) f mf Hnf Hb)
    as (_ & Hnc & Hm).
  rewrite (timer_callback_zero_stiffness env w latest Hlatest tf f t
             mf mt mf Hl Hf Ht Hnf Hnt Hnc Hm Hk).
  cbn. repeat split.
Qed.

Lemma timer_callback_zero_stiffness_raises_witness :
  let f := demo_recorder.mkVector3 5 0 0 in
  let w := demo_recorder.mkWorld (more.node_with_Kp 0 f) [] in
  let r := demo_recorder.timer_callback sample.env_ok w in
  snd r = inl ZeroDivisionError /\
  demo_recorder.can_move (demo_recorder.self (fst r)) = false /\
  demo_recorder.sent (fst r) = [].
Proof.
  intros f w r.
  destruct (timer_callback_zero_stiffness_raises sample.env_ok w
              (sample.wrench_of f) sample.identity_transform f
              (demo_recorder.mkVector3 0 0 0) 5%float 0%float
              eq_refl eq_refl eq_refl eq_refl sample_norm_5 sample_norm_zero
              eq_refl eq_refl)
    as (H1 & H2 & _ & _ & _ & H5).
  repeat split; assumption.
Defined.

(** X11: only the three frame-lookup failures are handled. Any other
    exception raised by the lookup or by one of the two rotations leaves the
    tick with the node exactly as it was and with nothing logged or sent. *)
Theorem timer_callback_other_exception_escapes :
  forall (env : demo_recorder.Env) (w : demo_recorder.World)
         (latest : demo_recorder.WrenchStamped) (e : exn),
    demo_recorder.latest_wrench (demo_recorder.self w) = Some latest ->
    demo_recorder.tf_failure e = false ->
    let lookup := demo_recorder.lookup_transform env "tool0"
                    (demo_recorder.frame_id (demo_recorder.wheader latest)) in
    let rotate_force tf := demo_recorder.transform_vector env tf
                    (demo_recorder.force (demo_recorder.wrench latest)) in
    let rotate_torque tf := demo_recorder.transform_vector env tf
                    (demo_recorder.torque (demo_recorder.wrench latest)) in
    (lookup = inl e \/
     (exists tf, lookup = inr tf /\ rotate_force tf = inl e) \/
     (exists tf f, lookup = inr tf /\ rotate_force tf = inr f /\
                   rotate_torque tf = inl e)) ->
    demo_recorder.timer_callback env w = (w, inl e).
Proof.
  intros env w latest e Hlatest He lookup rf rt H. subst lookup rf rt.
  unfold demo_recorder.timer_callback, demo_recorder.timer_body, try_except,
    bind, get_, lift.
  rewrite Hlatest. cbn.
  destruct H as [Hl|[(tf & Hl & Hf)|(tf & f & Hl & Hf & Ht)]];
    rewrite Hl; cbn; rewrite ?Hf; cbn; rewrite ?Ht; cbn;
    now rewrite He.
Qed.

Lemma timer_callback_other_exception_escapes_witness :
  let w := sample.world (demo_recorder.mkVector3 5 0 0) true in
  demo_recorder.timer_callback more.env_bad_rotation w = (w, inl ValueError).
Proof.
  intros w.
  apply (timer_callback_other_exception_escapes more.env_bad_rotation w
           (sample.wrench_of (demo_recorder.mkVector3 5 0 0)) ValueError
           eq_refl eq_refl).
  right. left. exists sample.identity_transform. split; reflexivity.
Defined.



(** ** The emitter on a command that is too small *)





(** X14: the emitter never assigns an attribute of the node, and all it may
    add to what has been sent is one joint-velocity message. *)
Theorem publish_trajectory_only_publishes :
  forall (w : demo_recorder.World),
    let r := demo_recorder.publish_trajectory w in
    demo_recorder.self (fst r) = demo_recorder.self w /\
    (demo_recorder.sent (fst r) = demo_recorder.sent w \/
     exists data, snd r = inr tt /\
       demo_recorder.sent (fst r) =
         demo_recorder.sent w ++ [demo_recorder.Publish_vel data]).
Proof.
  intros [s out].
  unfold demo_recorder.publish_trajectory, bind, get_, ret, lift,
    demo_recorder.emit, modify.
  cbn.
  destruct (demo_recorder.initial_joint_positions s); [|now split; [|left]].
  destruct (demo_recorder.can_move s); [|now split; [|left]].
  destruct (demo_recorder.len_joint_names s) as [e|n]; [now split; [|left]|].
  destruct (demo_recorder.diagonal_from (demo_recorder.cmd s) 0 n) as [e|data];
    [now split; [|left]|].
  cbn. split; [reflexivity|]. right. now exists data.
Qed.

(** ** The position feedback *)

Ltac run_joint_angles_callback s :=
  unfold demo_recorder.joint_angles_callback, bind, get_, ret, lift,
    demo_recorder.upd, modify;
  cbn;
  destruct (demo_recorder.joint_names s) eqn:?Hn;
  destruct (demo_recorder.initial_joint_positions s) eqn:?Hp; cbn;
  repeat match goal with
    | |- context [match ?x with inl _ => _ | inr _ => _ end] =>
        destruct x eqn:?; cbn
    end;
  repeat match goal with
    | |- context [match ?x with Some _ => _ | None => _ end] =>
        destruct x eqn:?; cbn
    end.

(** X15: the position callback, whether it returns or raises, sends nothing
    and never touches the interaction mode, the motion-permitted flag, the
    previous twist, the stored wrench or the gains of the compliance law; and
    it never clears [reached_start] or [reached_goal]. *)
Theorem joint_angles_callback_frame :
  forall (env : demo_recorder.Env) (msg : demo_recorder.JointState)
         (w : demo_recorder.World),
    let r := demo_recorder.joint_angles_callback env msg w in
    let s := demo_recorder.self w in
    let s' := demo_recorder.self (fst r) in
    demo_recorder.sent (fst r) = demo_recorder.sent w /\
    demo_recorder.interaction s' = demo_recorder.interaction s /\
    demo_recorder.can_move s' = demo_recorder.can_move s /\
    demo_recorder.current_twist s' = demo_recorder.current_twist s /\
    demo_recorder.latest_wrench s' = demo_recorder.latest_wrench s /\
    demo_recorder.Kp s' = demo_recorder.Kp s /\
    demo_recorder.Kd s' = demo_recorder.Kd s /\
    demo_recorder.num_dofs s' = demo_recorder.num_dofs s /\
    (demo_recorder.reached_start s = true ->
       demo_recorder.reached_start s' = true) /\
    (demo_recorder.reached_goal s = true ->
       demo_recorder.reached_goal s' = true).
Proof.
  intros env msg [s out]. cbn [demo_recorder.self demo_recorder.sent].
  run_joint_angles_callback s; repeat split; auto.
Qed.

Lemma joint_angles_callback_frame_witness :
  let w := demo_recorder.mkWorld
             (demo_recorder.set_reached_start true more.fresh_node) [] in
  let msg := demo_recorder.mkJointState ["a"; "b"]%string [1; 2]%float
               [0; 0]%float in
  demo_recorder.reached_start
    (demo_recorder.self
       (fst (demo_recorder.joint_angles_callback sample.env_ok msg w))) = true.
Proof.
  intros w msg.
  apply (joint_angles_callback_frame sample.env_ok msg w). reflexivity.
Defined.

(** X16: the joint names and the initial joint positions are written once:
    a node without them takes them, rotated by one place, from the message it
    receives; a node that has them keeps them through every later message. *)
Theorem joint_angles_callback_writes_once :
  forall (env : demo_recorder.Env) (msg : demo_recorder.JointState)
         (w : demo_recorder.World),
    let s := demo_recorder.self w in
    let s' := demo_recorder.self
                (fst (demo_recorder.joint_angles_callback env msg w)) in
    demo_recorder.joint_names s' =
      Some (match demo_recorder.joint_names s with
            | Some names => names
            | None => demo_recorder.roll1 (demo_recorder.name msg)
            end) /\
    demo_recorder.initial_joint_positions s' =
      Some (match demo_recorder.initial_joint_positions s with
            | Some p => p
            | None => demo_recorder.roll1 (demo_recorder.position msg)
            end).
Proof.
  intros env msg [s out]. cbn [demo_recorder.self].
  run_joint_angles_callback s; split; congruence.
Qed.

(** X17: a first message whose number of positions is not [num_dofs] makes
    the callback raise ValueError at the reshape; the joint names and the
    initial positions of that message are stored all the same, and the
    command matrix and the current position are not assigned. *)
Theorem joint_angles_callback_wrong_length :
  forall (env : demo_recorder.Env) (msg : demo_recorder.JointState)
         (w : demo_recorder.World),
    let s := demo_recorder.self w in
    demo_recorder.joint_names s = None ->
    demo_recorder.initial_joint_positions s = None ->
    length (demo_recorder.position msg) <> demo_recorder.num_dofs s ->
    let r := demo_recorder.joint_angles_callback env msg w in
    let s' := demo_recorder.self (fst r) in
    snd r = inl ValueError /\
    demo_recorder.joint_names s' =
      Some (demo_recorder.roll1 (demo_recorder.name msg)) /\
    demo_recorder.initial_joint_positions s' =
      Some (demo_recorder.roll1 (demo_recorder.position msg)) /\
    demo_recorder.cmd s' = demo_recorder.cmd s /\
    demo_recorder.curr_pos s' = demo_recorder.curr_pos s.
Proof.
  intros env msg [s out]. cbn [demo_recorder.self].
  intros Hn Hp Hlen.
  assert (Hroll : length (demo_recorder.roll1 (demo_recorder.position msg)) =
                  length (demo_recorder.position msg)).
  { unfold demo_recorder.roll1.
    rewrite <- (length_rev (demo_recorder.position msg)).
    destruct (rev (demo_recorder.position msg)) as [|last front];
      [reflexivity|].
    cbn. now rewrite length_rev. }
  unfold demo_recorder.joint_angles_callback, bind, get_, ret, lift,
    demo_recorder.upd, modify.
  cbn. rewrite Hn, Hp. cbn.
  unfold demo_recorder.reshape_col. rewrite Hroll.
  destruct (length (demo_recorder.position msg) =? demo_recorder.num_dofs s)%nat
    eqn:E; [apply Nat.eqb_eq in E; contradiction|].
  cbn. repeat split.
Qed.

Lemma joint_angles_callback_wrong_length_witness :
  let w := demo_recorder.mkWorld more.fresh_node [] in
  let msg := demo_recorder.mkJointState ["a"; "b"]%string [1; 2]%float
               [0; 0]%float in
  let r := demo_recorder.joint_angles_callback sample.env_ok msg w in
  snd r = inl ValueError /\
  demo_recorder.joint_names (demo_recorder.self (fst r)) =
    Some ["b"; "a"]%string.
Proof.
  intros w msg r.
  destruct (joint_angles_callback_wrong_length sample.env_ok msg w
              eq_refl eq_refl) as (H1 & H2 & _).
  - cbn. discriminate.
  - split; [exact H1|exact H2].
Defined.

(** ** The callbacks together *)





(** X19: while motion is not permitted, a position message followed by the
    emitter sends nothing: the message may store a new command, and the
    emitter still holds it back. *)
Theorem joint_message_then_publish_held_back :
  forall (env : demo_recorder.Env) (msg : demo_recorder.JointState)
         (w : demo_recorder.World),
    demo_recorder.can_move (demo_recorder.self w) = false ->
    let r := more.then_ (demo_recorder.joint_angles_callback env msg)
               demo_recorder.publish_trajectory w in
    demo_recorder.sent (fst r) = demo_recorder.sent w /\
    demo_recorder.can_move (demo_recorder.self (fst r)) = false.
Proof.
  intros env msg [s out] Hc. cbn [demo_recorder.self] in Hc.
  unfold more.then_, bind at 1.
  run_joint_angles_callback s;
    unfold demo_recorder.publish_trajectory, bind, get_, ret; cbn;
    rewrite ?Hc; cbn; split; auto.
Qed.

Lemma joint_message_then_publish_held_back_witness :
  let w := sample.world (demo_recorder.mkVector3 0 0 0) false in
  let msg := demo_recorder.mkJointState ["a"; "b"; "c"]%string
               [1; 2; 3]%float [0; 0; 0]%float in
  let r := more.then_ (demo_recorder.joint_angles_callback sample.env_ok msg)
             demo_recorder.publish_trajectory w in
  demo_recorder.sent (fst r) = [] /\
  demo_recorder.cmd (demo_recorder.self (fst r)) = np.zeros 3 3.
Proof.
  intros w msg r.
  destruct (joint_message_then_publish_held_back sample.env_ok msg w eq_refl)
    as [H _].
  split; [exact H|reflexivity].
Defined.




(** * Properties of the parameter converters *)



Lemma split_colon_once_cases (s : string) :
  (params.count_colons s = 0%nat /\ params.split_colon_once s = [s]) \/
  (exists k v, s = (k ++ ":" ++ v)%string /\ params.count_colons k = 0%nat /\
               params.split_colon_once s = [k; v]).
Proof.
  induction s as [|c s IH].
  - left. split; reflexivity.
  - cbn. destruct (Ascii.eqb c ":") eqn:E.
    + right. exists EmptyString, s. apply Ascii.eqb_eq in E. subst c.
      repeat split.
    + destruct IH as [[H0 Hs]|(k & v & Hs & Hk & Hsp)].
      * left. rewrite Hs. split; [exact H0|reflexivity].
      * right. exists (String c k), v. rewrite Hsp. subst s.
        repeat split. cbn. now rewrite E, Hk.
Qed.


Lemma dict_get_set {V : Type} (d : params.dict V) (k k' : string) (v : V) :
  params.dict_get (params.dict_set d k v) k' =
    if String.eqb k k' then Some v else params.dict_get d k'.
Proof.
  induction d as [|[k0 v0] d IH]; cbn.
  - reflexivity.
  - destruct (String.eqb k0 k) eqn:E0; cbn.
    + apply String.eqb_eq in E0. subst k0.
      now destruct (String.eqb k k').
    + destruct (String.eqb k0 k') eqn:E1.
      * apply String.eqb_eq in E1. subst k0.
        rewrite String.eqb_sym in E0. now rewrite E0.
      * exact IH.
Qed.

Section ParameterDict.

Context {V : Type}.
Variable literal_eval : string -> params.evaluated V.
Hypothesis no_other_exception :
  forall s e, literal_eval s <> params.Failed e.

Lemma convert_string_to_appropriate_type_total (s : string) :
  params.convert_string_to_appropriate_type literal_eval s =
    inr (params.converted_of literal_eval s).
Proof.
  unfold params.convert_string_to_appropriate_type, params.converted_of.
  destruct (literal_eval s) as [v| |e] eqn:E; try reflexivity.
  now apply no_other_exception in E.
Qed.

Lemma get_parameter_as_dict_from_spec (items : list string) :
  Forall (fun item => (0 < params.count_colons item)%nat) items ->
  forall d0, exists d,
    params.get_parameter_as_dict_from literal_eval items d0 = inr d /\
    forall k,
      params.dict_get d k =
        match params.last_value items k with
        | Some v => Some (params.converted_of literal_eval v)
        | None => params.dict_get d0 k
        end.
Proof.
  induction 1 as [|item items Hitem _ IH]; intros d0.
  - exists d0. split; reflexivity.
  - destruct (split_colon_once_cases item) as [[H0 _]|(key & v & _ & _ & Hsp)];
      [lia|].
    cbn [params.get_parameter_as_dict_from params.last_value].
    rewrite Hsp. cbn [params.unpack2 ok].
    rewrite convert_string_to_appropriate_type_total.
    destruct (IH (params.dict_set d0 key (params.converted_of literal_eval v)))
      as (d & Hrun & Hget).
    exists d. split; [exact Hrun|].
    intros k. rewrite Hget.
    destruct (params.last_value items k); [reflexivity|].
    rewrite dict_get_set. now destruct (String.eqb key k).
Qed.


End ParameterDict.

(** X21: when every item holds a colon (and [literal_eval] raises nothing but
    ValueError or SyntaxError), [get_parameter_as_dict] returns a dictionary in
    which a key is bound to the converted value of the last item with that
    key, the value being everything after the first colon of the item, and a
    key that no item has is absent. *)
Theorem get_parameter_as_dict_last_item_wins :
  forall (V : Type) (literal_eval : string -> params.evaluated V)
         (items : list string),
    (forall s e, literal_eval s <> params.Failed e) ->
    Forall (fun item => (0 < params.count_colons item)%nat) items ->
    exists d,
      params.get_parameter_as_dict literal_eval items = inr d /\
      forall k,
        params.dict_get d k =
          option_map (params.converted_of literal_eval)
            (params.last_value items k).
Proof.
  intros V literal_eval items Hno Hall.
  destruct (get_parameter_as_dict_from_spec literal_eval Hno items Hall [])
    as (d & Hrun & Hget).
  exists d. split; [exact Hrun|].
  intros k. rewrite Hget. now destruct (params.last_value items k).
Qed.

Lemma get_parameter_as_dict_last_item_wins_witness :
  exists d,
    params.get_parameter_as_dict params.sample_eval
      ["a:0"; "b:x:y"; "a:1"]%string = inr d /\
    params.dict_get d "a" = Some (params.Value 1%nat) /\
    params.dict_get d "b" = Some (params.Text "x:y") /\
    params.dict_get d "c" = None.
Proof.
  destruct (get_parameter_as_dict_last_item_wins nat params.sample_eval
              ["a:0"; "b:x:y"; "a:1"]%string) as (d & Hrun & Hget).
  - intros s e. unfold params.sample_eval.
    destruct (String.eqb s "0"); [discriminate|].
    destruct (String.eqb s "1"); discriminate.
  - repeat constructor.
  - exists d. split; [exact Hrun|].
    rewrite !Hget. repeat split.
Defined.





